(** * edge: the probabilistic safety measure and the product space

    A shallow embedding of

    - [edge/model/safety_models/safety_measure.py]
      ([SafetyMeasure.update], [measure], [is_in_level_set], [level_set],
      [MaternSafety.load]),
    - [edge/space/space.py] ([DiscreteProductSpace]),
    - [edge/model/policy_models/safety.py] (the three safety policies) and
    - [experiments/cartpole_optim/cartpole_optim.py]
      ([log_hyperparameters]).

    Python methods become functions in a state-and-exception monad whose state
    holds the object [self] and a trace of the calls made to the regressor and
    of the warnings issued.  numpy arrays are records of a shape and of the
    row-major data; float64 scalars, [scipy.stats.norm.cdf] and the
    floating-point warnings numpy raises are an interface ([Float64]), as is the
    Gaussian-process regressor ([Regressor]), which lives outside these files. *)

From Stdlib Require Import PrimFloat FloatOps FloatAxioms SpecFloat Ascii.
From Stdlib Require Uint63.
From stdpp Require Import gmap strings list pretty.

Local Open Scope string_scope.
Local Open Scope list_scope.
Local Open Scope nat_scope.

(** ** Python exceptions and the monad of methods *)

Inductive exn :=
| ValueError (msg : string)
| NameError (msg : string)
| AttributeError (msg : string)
| AxisError (msg : string)
| KeyError (key : string)
| IndexError (msg : string)
| FileNotFoundError (path : string)
| JSONDecodeError (msg : string).

(** A method run from state [s] ends with a value or an exception, and a state. *)
Definition M (W A : Type) : Type := W -> (exn + A) * W.

Definition ret {W A} (x : A) : M W A := fun w => (inr x, w).

Definition raise {W A} (e : exn) : M W A := fun w => (inl e, w).

Definition bind {W A B} (c : M W A) (k : A -> M W B) : M W B :=
  fun w => match c w with
           | (inr x, w') => k x w'
           | (inl e, w') => (inl e, w')
           end.

Definition lift {W A} (r : exn + A) : M W A :=
  match r with inr x => ret x | inl e => raise e end.

Notation "'let*' x ':=' c 'in' k" := (bind c (fun x => k))
  (at level 10, x pattern, c at level 100, k at level 200).

(** ** numpy arrays *)

Record ndarray (A : Type) := mk_ndarray { shape : list nat; data : list A }.
Arguments mk_ndarray {A} shape data.
Arguments shape {A} _.
Arguments data {A} _.

Definition size {A} (a : ndarray A) : nat := length (data a).
Definition ndim {A} (a : ndarray A) : nat := length (shape a).
Definition prod (dims : list nat) : nat := foldr Nat.mul 1 dims.

(** [np.array([x])] *)
Definition np_array1 {A} (x : A) : ndarray A := mk_ndarray [1] [x].

(** [np.atleast_1d(a)]: a 0-d array becomes a 1-element vector. *)
Definition np_atleast_1d {A} (a : ndarray A) : ndarray A :=
  match shape a with
  | [] => mk_ndarray [1] (data a)
  | _ :: _ => a
  end.

(** [np.squeeze(a)]: the axes of length one are dropped. *)
Definition np_squeeze {A} (a : ndarray A) : ndarray A :=
  mk_ndarray (List.filter (fun d => negb (Nat.eqb d 1)) (shape a)) (data a).

Definition np_map {A B} (f : A -> B) (a : ndarray A) : ndarray B :=
  mk_ndarray (shape a) (f <$> data a).

(** [a.reshape((-1,) + tail)]: the first dimension is inferred; numpy refuses
    when the size is not a multiple of the product of [tail]. *)
Definition reshape_rows {A} (tail : list nat) (a : ndarray A) : exn + ndarray A :=
  let p := prod tail in
  if Nat.eqb p 0 || negb (Nat.eqb (size a mod p) 0)
  then inl (ValueError ("cannot reshape array of size " +:+ pretty (size a)))
  else inr (mk_ndarray (size a / p :: tail) (data a)).

(** [a.reshape(-1, 1)], always possible, then unpacked with [*]: one
    one-element array per entry. *)
Definition unpack_column {A} (a : ndarray A) : list (ndarray A) :=
  np_array1 <$> data a.

(** Iteration over the first axis ([for s in a]). *)
Definition subarrays {A} (a : ndarray A) : list (ndarray A) :=
  match shape a with
  | [] => []
  | n :: sh =>
      (fun i => mk_ndarray sh (take (prod sh) (drop (i * prod sh) (data a))))
        <$> seq 0 n
  end.

(** ** float64 scalars

    The arithmetic of doubles, the standard normal distribution function and
    the mean of a block of booleans, each with the texts of the
    floating-point warnings numpy raises for it at a given entry. *)

Class Float64 (F : Type) := {
  f0 : F;                         (* the literal 0 / 0. *)
  fsub : F -> F -> F;
  fdiv : F -> F -> F;
  fsqrt : F -> F;
  fabs : F -> F;
  fltb : F -> F -> bool;          (* x < y *)
  ndtr : F -> F;                  (* scipy.stats.norm.cdf at one point *)
  fmean : list bool -> F;         (* the mean of booleans, as a double *)
  sub_flags : F -> F -> list string;
  div_flags : F -> F -> list string;
  ndtr_flags : F -> list string;
  mean_flags : list bool -> list string
}.

Section Numpy.
Context {F : Type} `{Float64 F}.

(** [x > y] *)
Definition fgtb (x y : F) : bool := fltb y x.

(** The square root of a negative double is invalid: numpy warns. *)
Definition sqrt_flags (x : F) : list string :=
  if fltb x f0 then ["invalid value encountered in sqrt"] else [].

(** Every operation returns its value and the warnings it raised. *)
Definition np_sub_scalar (a : ndarray F) (x : F) : ndarray F * list string :=
  (np_map (fun m => fsub m x) a, flat_map (fun m => sub_flags m x) (data a)).

Definition np_sqrt (a : ndarray F) : ndarray F * list string :=
  (np_map fsqrt a, flat_map sqrt_flags (data a)).

Definition np_abs (a : ndarray F) : ndarray F := np_map fabs a.

(** Division of two arrays of one shape (broadcasting between operands of
    different shapes is not modelled: it is refused). *)
Definition np_divide (a b : ndarray F) : exn + ndarray F * list string :=
  if decide (shape a = shape b)
  then inr (mk_ndarray (shape a) (zip_with fdiv (data a) (data b)),
            flat_map (fun p => div_flags p.1 p.2) (zip (data a) (data b)))
  else inl (ValueError "operands could not be broadcast together").

Definition norm_cdf (a : ndarray F) : ndarray F * list string :=
  (np_map ndtr a, flat_map ndtr_flags (data a)).

(** [a > x] *)
Definition np_gt_scalar (a : ndarray F) (x : F) : ndarray bool :=
  np_map (fun v => fgtb v x) a.

(** [a.mean(tuple(1 + k for k in range(index_dim)))] on a boolean array:
    the axes 1 .. [k] are averaged out. *)
Definition np_mean_axes (k : nat) (a : ndarray bool)
  : exn + ndarray F * list string :=
  match shape a with
  | [] =>
      if decide (k = 0)
      then inr (np_map (fun b => fmean [b]) a,
                flat_map (fun b => mean_flags [b]) (data a))
      else inl (AxisError "axis is out of bounds")
  | n :: sh =>
      if decide (k ≤ length sh)%nat then
        let mid := prod (take k sh) in
        let rest := prod (drop k sh) in
        let block i r :=
          (fun m => default false (data a !! ((i * mid + m) * rest + r)))
            <$> seq 0 mid in
        let blocks :=
          i ← seq 0 n; r ← seq 0 rest; [block i r] in
        inr (mk_ndarray (n :: drop k sh) (fmean <$> blocks),
             flat_map mean_flags blocks)
      else inl (AxisError "axis is out of bounds")
  end.
End Numpy.

(** ** What the safety measure talks to *)

Inductive slice := Slice (start stop step : option Z).

(** [slice(None, None, None)] *)
Definition slice_all : slice := Slice None None None.

(** The index objects built for [GPModel.query]. *)
#[local] Set Warnings "-register-all".
Inductive index (F : Type) :=
| IdxArray (a : ndarray F)
| IdxSlice (s : slice)
| IdxTuple (items : list (index F))
| IdxList (items : list (index F)).
Arguments IdxArray {F} a.
Arguments IdxSlice {F} s.
Arguments IdxTuple {F} items.
Arguments IdxList {F} items.

(** The [state] argument of [level_set]: [None], a slice or an array. *)
Inductive state_arg (F : Type) :=
| StateNone
| StateSlice (s : slice)
| StateArray (a : ndarray F).
Arguments StateNone {F}.
Arguments StateSlice {F} s.
Arguments StateArray {F} a.

(** A threshold argument: one value, or a list (or tuple) of values. *)
Inductive threshold (F : Type) :=
| Single (x : F)
| Several (xs : list F).
Arguments Single {F} x.
Arguments Several {F} xs.

(** [self.env]: the state-action space and the shape of the action space. *)
Record Env (F : Type) := mk_Env {
  action_shape : list nat;          (* env.action_space.shape *)
  action_index_dim : nat;           (* env.action_space.index_dim *)
  stateaction_getitem : ndarray F -> ndarray F -> ndarray F
                                    (* env.stateaction_space[state, action] *)
}.
Arguments mk_Env {F} _ _ _.
Arguments action_shape {F} _.
Arguments action_index_dim {F} _.
Arguments stateaction_getitem {F} _ _ _.

(** The regressor behind [GPModel]: [query] answers with a tuple of arrays,
    [append_data] gives the regressor after the row was added.  Both are
    taken as total: a failure inside the regressor is not part of this
    development. *)
Class Regressor (F GP : Type) := {
  query : Env F -> GP -> index F -> bool -> bool -> list (ndarray F);
  append_data :
    GP -> ndarray F -> ndarray F -> list bool -> list bool -> list bool -> GP
}.

Inductive warning_category := RuntimeWarning | UserWarning.

(** What a method does that its caller can observe besides its result. *)
Inductive event (F : Type) :=
| Query (i : index F) (return_covar return_covar_matrix : bool)
| AppendData (x y : ndarray F) (forgettable make_forget unskippable : list bool)
| Warn (category : warning_category) (message : string).
Arguments Query {F} i return_covar return_covar_matrix.
Arguments AppendData {F} x y forgettable make_forget unskippable.
Arguments Warn {F} category message.

(** The objects [level_set] returns. *)
Inductive pyobj (F : Type) :=
| BoolArray (a : ndarray bool)
| FloatArray (a : ndarray F)
| BoolArrays (l : list (ndarray bool))
| FloatArrays (l : list (ndarray F))
| NoneObj.
Arguments BoolArray {F} a.
Arguments FloatArray {F} a.
Arguments BoolArrays {F} l.
Arguments FloatArrays {F} l.
Arguments NoneObj {F}.

Inductive retval (F : Type) :=
| Bare (v : pyobj F)
| Tuple (vs : list (pyobj F)).
Arguments Bare {F} v.
Arguments Tuple {F} vs.

(** [catch_warnings(record=True)] under the default filter: a warning text is
    recorded the first time it is raised. *)
Fixpoint once (seen l : list string) : list string :=
  match l with
  | [] => []
  | x :: l' => if decide (x ∈ seen) then once seen l' else x :: once (x :: seen) l'
  end.

Definition recorded (emitted : list string) : list string := once [] emitted.

Definition nl : string := String "010"%char "".

(** [s[:-2]] *)
Definition drop_last2 (s : string) : string :=
  String.substring 0 (String.length s - 2) s.

(** Lines 178-185 of [level_set]: the text of the consolidated warning. *)
Definition warning_text (w : list string) : string :=
  let original_warning := foldl (fun acc m => acc +:+ m +:+ nl) "" w in
  let original_warning := drop_last2 original_warning in
  "Warning encountered in cumulative density function computation. " +:+ nl
  +:+ "This may be caused by an ill-conditioned kernel matrix causing a negative covariance."
  +:+ nl +:+ "Original warning: " +:+ original_warning.

(** ** SafetyMeasure *)

Section SafetyMeasure.
Context {F GP : Type} `{Float64 F} `{Regressor F GP}.

(** The object: [self.env], [self.gp], [self.gamma_measure]. *)
Record SafetyMeasure := mk_SafetyMeasure {
  env : Env F;
  gp : GP;
  gamma_measure : F
}.

Record world := mk_world {
  self : SafetyMeasure;
  trace : list (event F)
}.

Definition get_self : M world SafetyMeasure := fun w => (inr (self w), w).

Definition log (e : event F) : M world () :=
  fun w => (inr (), mk_world (self w) (trace w ++ [e])).

(** [self.query(index, return_covar=..., return_covar_matrix=...)] *)
Definition call_query (i : index F) (return_covar return_covar_matrix : bool)
  : M world (list (ndarray F)) :=
  fun w =>
    (inr (query (env (self w)) (gp (self w)) i return_covar return_covar_matrix),
     mk_world (self w) (trace w ++ [Query i return_covar return_covar_matrix])).

(** The state once the regressor was given a row: the regressor is the one
    [append_data] answers, and the call is on the trace. *)
Definition with_row (w : world) (x y : ndarray F)
    (forgettable make_forget unskippable : list bool) : world :=
  let s := self w in
  mk_world
    (mk_SafetyMeasure (env s)
       (append_data (gp s) x y forgettable make_forget unskippable)
       (gamma_measure s))
    (trace w ++ [AppendData x y forgettable make_forget unskippable]).

(** [self.gp.append_data(x, y, forgettable=..., make_forget=..., unskippable=...)] *)
Definition call_append_data (x y : ndarray F)
    (forgettable make_forget unskippable : list bool) : M world () :=
  fun w => (inr (), with_row w x y forgettable make_forget unskippable).

(** [warnings.warn(message)] *)
Definition warnings_warn (message : string) : M world () :=
  log (Warn UserWarning message).

(** Warnings numpy raises outside any [catch_warnings]. *)
Definition numpy_warn (emitted : list string) : M world () :=
  fun w => (inr (), mk_world (self w)
                      (trace w ++ (Warn RuntimeWarning <$> recorded emitted))).

Definition threshold_list (t : threshold F) : list F :=
  match t with
  | Single x => [x]
  | Several xs => xs
  end.

(** [norm.cdf((measure_slice - lambda_threshold) / np.sqrt(covar))] with
    the warnings raised on the way. *)
Definition cdf_value (measure_slice covar : ndarray F) (lambda_threshold : F)
  : exn + ndarray F * list string :=
  let '(num, w1) := np_sub_scalar measure_slice lambda_threshold in
  let '(den, w2) := np_sqrt covar in
  match np_divide num den with
  | inl e => inl e
  | inr (quo, w3) =>
      let '(p, w4) := norm_cdf quo in
      inr (p, w1 ++ w2 ++ w3 ++ w4)
  end.

(** The list comprehension over [lambda_threshold_list]. *)
Fixpoint cdf_list (measure_slice covar : ndarray F) (lambdas : list F)
  : exn + list (ndarray F) * list string :=
  match lambdas with
  | [] => inr ([], [])
  | lambda_threshold :: lambdas' =>
      match cdf_value measure_slice covar lambda_threshold with
      | inl e => inl e
      | inr (p, w1) =>
          match cdf_list measure_slice covar lambdas' with
          | inl e => inl e
          | inr (ps, w2) => inr (p :: ps, w1 ++ w2)
          end
      end
  end.

(** Lines 124-135 of [level_set]: the index of the query. *)
Definition level_set_index (state : state_arg F) : index F :=
  match state with
  | StateNone => IdxTuple [IdxSlice slice_all; IdxSlice slice_all]
  | StateSlice s => IdxTuple [IdxSlice s; IdxSlice slice_all]
  | StateArray a =>
      if bool_decide (1 < ndim a) && bool_decide (1 < default 0 (head (shape a)))
      then IdxList ((fun s => IdxTuple ((IdxArray <$> unpack_column s)
                                         ++ [IdxSlice slice_all]))
                      <$> subarrays a)
      else IdxTuple ((IdxArray <$> unpack_column a) ++ [IdxSlice slice_all])
  end.

(** Lines 136-154: the query, unpacked and reshaped. *)
Definition query_slices (state : state_arg F) (return_covar_matrix : bool)
  : M world (ndarray F * ndarray F * option (ndarray F)) :=
  let index := level_set_index state in
  let* s := get_self in
  let output_tail := action_shape (env s) in
  let* query_out := call_query index true return_covar_matrix in
  let* (measure_slice, covar_slice, covar_matrix) :=
    (if return_covar_matrix then
       match query_out with
       | [m; c; cm] => ret (m, c, Some cm)
       | _ => raise (ValueError "cannot unpack the query into 3 values")
       end
     else
       match query_out with
       | [m; c] => ret (m, c, None)
       | _ => raise (ValueError "cannot unpack the query into 2 values")
       end) in
  let* measure_slice := lift (reshape_rows output_tail measure_slice) in
  let* covar_slice := lift (reshape_rows output_tail covar_slice) in
  let* covar_matrix :=
    match covar_matrix with
    | Some cm => let* cm' := lift (reshape_rows output_tail cm) in ret (Some cm')
    | None => ret None
    end in
  ret (measure_slice, covar_slice, covar_matrix).

(** Lines 161-195: the probabilities, with the fallback on a recorded
    warning; the consolidated warning is issued once the block is left. *)
Definition level_values (measure_slice covar_slice : ndarray F)
    (lambda_threshold_list : list F) : M world (list (ndarray F)) :=
  let* (cdf_list_, emitted) :=
    lift (cdf_list measure_slice covar_slice lambda_threshold_list) in
  let w := recorded emitted in
  let* (warning_message, level_value_list) :=
    (if decide (0 < length w)%nat then
       let* (fallback, _) :=
         lift (cdf_list measure_slice (np_abs covar_slice) lambda_threshold_list) in
       ret (Some (warning_text w), fallback)
     else ret (None, cdf_list_)) in
  let* _ :=
    match warning_message with
    | Some message => warnings_warn message
    | None => ret ()
    end in
  ret level_value_list.

(** [return_var += (x,)], on the tuple built when a flag is set. *)
Definition tuple_add (return_var : retval F) (x : pyobj F) : retval F :=
  match return_var with
  | Tuple vs => Tuple (vs ++ [x])
  | Bare v => Bare v       (* not reached: no flag is set in this case *)
  end.

(** Lines 201-203: a single level set is taken out of its list, and with
    it the first array of probabilities. *)
Definition unwrap_single (level_set_list : list (ndarray bool))
    (level_value_list : list (ndarray F)) : exn + pyobj F * pyobj F :=
  if decide (length level_set_list = 1) then
    match level_set_list, level_value_list with
    | ls :: _, lv :: _ => inr (BoolArray ls, FloatArray lv)
    | _, _ => inl (IndexError "list index out of range")
    end
  else inr (BoolArrays level_set_list, FloatArrays level_value_list).

Definition level_set (state : state_arg F)
    (lambda_threshold gamma_threshold : threshold F)
    (return_proba return_covar return_measure return_covar_matrix : bool)
  : M world (retval F) :=
  let lambda_threshold_list := threshold_list lambda_threshold in
  let gamma_threshold_list := threshold_list gamma_threshold in
  let* (measure_slice, covar_slice, covar_matrix) :=
    query_slices state return_covar_matrix in
  let* level_value_list :=
    level_values measure_slice covar_slice lambda_threshold_list in
  let level_set_list :=
    zip_with np_gt_scalar level_value_list gamma_threshold_list in
  let* (level_set_list, level_value_list) :=
    lift (unwrap_single level_set_list level_value_list) in
  let return_var :=
    if return_proba || return_covar || return_measure || return_covar_matrix
    then Tuple [level_set_list]
    else Bare level_set_list in
  let return_var :=
    if return_proba then tuple_add return_var level_value_list else return_var in
  let return_var :=
    if return_covar then tuple_add return_var (FloatArray covar_slice)
    else return_var in
  let return_var :=
    if return_measure then tuple_add return_var (FloatArray measure_slice)
    else return_var in
  let return_var :=
    if return_covar_matrix
    then tuple_add return_var
           (match covar_matrix with Some cm => FloatArray cm | None => NoneObj end)
    else return_var in
  ret return_var.

Definition measure (state : state_arg F) (lambda_threshold : F)
    (gamma_threshold : option F) : M world (ndarray F) :=
  let* s := get_self in
  let gamma_threshold :=
    match gamma_threshold with
    | None => gamma_measure s
    | Some g => g
    end in
  let* level_set_ :=
    level_set state (Single lambda_threshold) (Single gamma_threshold)
      false false false false in
  match level_set_ with
  | Bare (BoolArray a) =>
      let* a := lift (reshape_rows (action_shape (env s)) a) in
      let* (m, emitted) := lift (np_mean_axes (action_index_dim (env s)) a) in
      let* _ := numpy_warn emitted in
      ret (np_atleast_1d m)
  | _ => raise (AttributeError "object has no attribute 'reshape'")
  end.

Definition is_in_level_set (state action : ndarray F)
    (lambda_threshold gamma_threshold : F) : M world (ndarray bool) :=
  let* query_out :=
    call_query (IdxTuple [IdxArray state; IdxArray action]) true false in
  let* (measure_, covar) :=
    match query_out with
    | [m; c] => ret (m, c)
    | _ => raise (ValueError "cannot unpack the query into 2 values")
    end in
  let* (level_value, emitted) :=
    lift (cdf_value measure_ covar lambda_threshold) in
  let* _ := numpy_warn emitted in
  ret (np_squeeze (np_gt_scalar level_value gamma_threshold)).

Definition update (state action new_state : ndarray F) (reward : F)
    (failed done : bool) (measure_ : option (ndarray F))
  : M world (ndarray F) :=
  let* s := get_self in
  let* update_value :=
    (if negb failed && negb (bool_decide (is_Some measure_)) then
       measure (StateArray new_state) f0 (Some (gamma_measure s))
     else if negb failed && bool_decide (is_Some measure_) then
       match measure_ with
       | Some m => ret (np_atleast_1d m)
       | None => ret (np_array1 f0)     (* not reached: [measure_] is set *)
       end
     else ret (np_array1 f0)) in
  let stateaction := stateaction_getitem (env s) state action in
  let* _ :=
    call_append_data stateaction update_value
      [negb failed] [negb failed] [failed] in
  ret update_value.
End SafetyMeasure.

Arguments SafetyMeasure : clear implicits.
Arguments world : clear implicits.

(** ** MaternSafety.load *)

(** The Matérn regressor of [edge.model.inference]: its constructor, its
    loader, which reads the saved regressor from the files, and the training
    data it exposes. *)
Class MaternGP (F GP : Type) := {
  MaternGP_init : option (ndarray F) -> option (ndarray F) -> GP;
  MaternGP_load :
    gmap string string -> string ->
    option (ndarray F) -> option (ndarray F) -> bool -> GP;
  train_x : GP -> ndarray F;
  train_y : GP -> ndarray F
}.

Section MaternSafetyLoad.
Context {F GP : Type} `{MaternGP F GP}.

(** [GPModel.GP_SAVE_NAME] and [GPModel.SAVE_NAME], [str(Path(folder) / name)]
    and [json.loads] on the text of a saved [state_dict]. *)
Variables GP_SAVE_NAME SAVE_NAME : string.
Variable joinpath : string -> string -> string.
Variable json_loads : string -> exn + gmap string F.

(** [MaternSafety.__init__] with [gp_params=None]. *)
Definition MaternSafety_init (env_ : Env F) (gamma_measure_ : F)
    (x_seed y_seed : option (ndarray F)) : SafetyMeasure F GP :=
  let gp_ := MaternGP_init x_seed y_seed in
  mk_SafetyMeasure env_ gp_ gamma_measure_.

(** The body of the [try]: the file is opened and read, its text parsed,
    and the entry looked up.  The files are a map from paths to texts. *)
Definition read_gamma_measure (files : gmap string string)
    (model_save_path : string) : exn + F :=
  match files !! model_save_path with
  | None => inl (FileNotFoundError model_save_path)
  | Some json_str =>
      match json_loads json_str with
      | inl e => inl e
      | inr state_dict =>
          match state_dict !! "gamma_measure" with
          | Some g => inr g
          | None => inl (KeyError "gamma_measure")
          end
      end
  end.

Definition load (files : gmap string string) (load_folder : string)
    (env_ : Env F) (gamma_measure_ : option F)
    (x_seed y_seed : option (ndarray F)) : exn + SafetyMeasure F GP :=
  let gp_load_path := joinpath load_folder GP_SAVE_NAME in
  let load_data := match x_seed with None => true | Some _ => false end in
  let gp_ := MaternGP_load files gp_load_path x_seed y_seed load_data in
  let '(x_seed, y_seed) :=
    if load_data then (Some (train_x gp_), Some (train_y gp_))
    else (x_seed, y_seed) in
  let gamma_read :=
    match gamma_measure_ with
    | None =>
        let model_save_path := joinpath load_folder SAVE_NAME in
        match read_gamma_measure files model_save_path with
        | inl (FileNotFoundError _) =>
            inl (ValueError
                   ("Could not find file " +:+ model_save_path +:+ ". "
                    +:+ "Specify gamma_measure instead to load this "
                    +:+ "model"))
        | r => r
        end
    | Some g => inr g
    end in
  match gamma_read with
  | inl e => inl e
  | inr g =>
      let model := MaternSafety_init env_ g x_seed y_seed in
      inr (mk_SafetyMeasure (env model) gp_ (gamma_measure model))
  end.
End MaternSafetyLoad.

(** ** DiscreteProductSpace *)

(** A discrete space as the product uses it: [x in s], [s[i]], [s.indexof(x)]. *)
Record DiscreteSpace (X I : Type) := mk_DiscreteSpace {
  space_contains : X -> bool;
  space_getitem : I -> X;
  space_indexof : X -> I
}.
Arguments mk_DiscreteSpace {X I} _ _ _.
Arguments space_contains {X I} _ _.
Arguments space_getitem {X I} _ _.
Arguments space_indexof {X I} _ _.

Module DiscreteProductSpace.
Section Methods.
Context {X I : Type}.

(** [self.sets] *)
Variable sets : list (DiscreteSpace X I).

Definition size_mismatch (expected received : nat) : string :=
  "Size mismatch: expected " +:+ pretty expected
  +:+ " coordinates, received " +:+ pretty received.

Definition contains (coordinates : list X) : exn + bool :=
  if decide (length coordinates ≠ length sets)
  then inl (ValueError (size_mismatch (length sets) (length coordinates)))
  else inr (forallb (fun args => space_contains args.2 args.1)
              (zip coordinates sets)).

Definition getitem (index_ : list I) : exn + list X :=
  if decide (length index_ ≠ length sets)
  then inl (ValueError (size_mismatch (length sets) (length index_)))
  else inr ((fun args => space_getitem args.2 args.1) <$> zip index_ sets).

(** The message of [indexof] reads [len(coordinates)], a name that is
    bound neither in the method nor in the module: building the message
    raises [NameError]. *)
Definition indexof (x : list X) : exn + list I :=
  if decide (length x ≠ length sets)
  then inl (NameError "name 'coordinates' is not defined")
  else inr ((fun args => space_indexof args.2 args.1) <$> zip x sets).
End Methods.
End DiscreteProductSpace.

(** ** A concrete instance: IEEE doubles and a regressor that replays stored answers *)

Module Doubles.
Local Open Scope float_scope.

Definition finite (x : float) : bool := negb (is_nan x) && negb (is_infinity x).

(** A stand-in for the distribution function, which scipy computes in C: it
    is monotone, [0.5] at zero, [0] below [-8] and [1] above [8]. *)
Definition ndtr_standin (z : float) : float :=
  if z <? -8 then 0 else if 8 <? z then 1 else 0.5 + z / 16.

Definition of_nat (n : nat) : float := of_uint63 (Uint63.of_Z (Z.of_nat n)).

Definition mean_of (bs : list bool) : float :=
  of_nat (length (List.filter (fun b : bool => b) bs)) / of_nat (length bs).

Definition sub_flags_ieee (x y : float) : list string :=
  if is_nan (x - y) && negb (is_nan x) && negb (is_nan y)
  then ["invalid value encountered in subtract"%string]
  else if is_infinity (x - y) && finite x && finite y
  then ["overflow encountered in subtract"%string]
  else [].

Definition div_flags_ieee (x y : float) : list string :=
  if is_nan (x / y) && negb (is_nan x) && negb (is_nan y)
  then ["invalid value encountered in divide"%string]
  else if PrimFloat.is_zero y && finite x
  then ["divide by zero encountered in divide"%string]
  else if is_infinity (x / y) && finite x && finite y
  then ["overflow encountered in divide"%string]
  else [].

#[export] Instance float64 : Float64 float := {|
  f0 := 0;
  fsub := PrimFloat.sub;
  fdiv := PrimFloat.div;
  fsqrt := PrimFloat.sqrt;
  fabs := PrimFloat.abs;
  fltb := PrimFloat.ltb;
  ndtr := ndtr_standin;
  fmean := mean_of;
  sub_flags := sub_flags_ieee;
  div_flags := div_flags_ieee;
  ndtr_flags := fun _ => [];
  mean_flags := fun bs =>
    match bs with
    | [] => ["Mean of empty slice."%string;
             "invalid value encountered in divide"%string]
    | _ :: _ => []
    end
|}.

(** The regressor answers every query with the arrays it stores and keeps
    the rows it was given. *)
Record replay := mk_replay {
  mean_out : ndarray float;
  covar_out : ndarray float;
  matrix_out : ndarray float;
  rows : list (ndarray float * ndarray float * list bool * list bool * list bool)
}.

#[export] Instance replay_regressor : Regressor float replay := {|
  query := fun _ g _ _ return_covar_matrix =>
    if return_covar_matrix then [mean_out g; covar_out g; matrix_out g]
    else [mean_out g; covar_out g];
  append_data := fun g x y forgettable make_forget unskippable =>
    mk_replay (mean_out g) (covar_out g) (matrix_out g)
      (rows g ++ [(x, y, forgettable, make_forget, unskippable)])
|}.

(** Three actions; the state-action is the state followed by the action. *)
Definition env3 : Env float :=
  mk_Env [3%nat] 1%nat (fun s a => mk_ndarray [length (data s ++ data a)] (data s ++ data a)).

Definition vec (l : list float) : ndarray float := mk_ndarray [length l] l.

Definition start (mean covar : list float) (gamma : float)
  : world float replay :=
  mk_world
    (mk_SafetyMeasure env3
       (mk_replay (vec mean) (vec covar) (mk_ndarray [3%nat; 3%nat] (repeat 0 9%nat)) [])
       gamma)
    [].

(** One state, three actions: means [1, 0.5, -1], variances one quarter. *)
Definition calm : world float replay :=
  start [1; 0.5; -1] [0.25; 0.25; 0.25] 0.5.

(** The same with a negative variance at the second action. *)
Definition ill : world float replay :=
  start [1; 0.5; -1] [0.25; -0.25; 0.25] 0.5.

Definition here : state_arg float := StateArray (vec [0.5]).

(** The Matérn regressor: a loaded one replays nothing and has no rows. *)
Definition blank : replay := mk_replay (vec []) (vec []) (vec []) [].

#[export] Instance replay_matern : MaternGP float replay := {|
  MaternGP_init := fun _ _ => blank;
  MaternGP_load := fun _ _ _ _ _ => blank;
  train_x := mean_out;
  train_y := covar_out
|}.

Definition slash (folder name : string) : string :=
  (folder +:+ "/" +:+ name)%string.

Definition dq : string := String "034"%char "".

(** The text of a saved [state_dict] with [gamma_measure] one half, and a
    parser that knows this text only. *)
Definition saved_half : string :=
  ("{" +:+ dq +:+ "gamma_measure" +:+ dq +:+ ": 0.5}")%string.

Definition loads_half (text : string) : exn + gmap string float :=
  if decide (text = saved_half)
  then inr {[ "gamma_measure"%string := 0.5 ]}
  else inl (JSONDecodeError "Expecting value").

(** A grid of [n] points [0, 1, ..., n-1], indexed by position. *)
Definition grid (n : nat) : DiscreteSpace nat nat :=
  mk_DiscreteSpace (fun x => bool_decide (x < n)%nat) (fun i => i) (fun x => x).
End Doubles.


(** ** Reading a result and a trace *)

Section Reading.
Context {F : Type} `{Float64 F}.

Definition is_query (e : event F) : bool :=
  match e with Query _ _ _ => true | _ => false end.

Definition is_warning (e : event F) : bool :=
  match e with Warn _ _ => true | _ => false end.

(** The objects of a result, in order: the bare object, or the items of
    the tuple. *)
Definition components (r : retval F) : list (pyobj F) :=
  match r with
  | Bare v => [v]
  | Tuple vs => vs
  end.

Definition is_array (v : pyobj F) : bool :=
  match v with
  | BoolArray _ | FloatArray _ => true
  | _ => false
  end.

Definition is_array_list (k : nat) (v : pyobj F) : bool :=
  match v with
  | BoolArrays l => bool_decide (length l = k)
  | FloatArrays l => bool_decide (length l = k)
  | _ => false
  end.

(** The level sets of a result: its first object, as a list. *)
Definition level_sets_of (r : retval F) : list (ndarray bool) :=
  match head (components r) with
  | Some (BoolArray a) => [a]
  | Some (BoolArrays l) => l
  | _ => []
  end.

(** The probability that the measure is above [lambda_threshold], entry
    by entry: the distribution function at
    [(mean - lambda_threshold) / sqrt(covariance)]. *)
Definition gaussian_probability (mean covar : ndarray F) (lambda_threshold : F)
  : ndarray F :=
  mk_ndarray (shape mean)
    (zip_with (fun m c => ndtr (fdiv (fsub m lambda_threshold) (fsqrt c)))
       (data mean) (data covar)).

(** The warnings raised while that probability is computed. *)
Definition probability_flags (mean covar : ndarray F) (lambda_threshold : F)
  : list string :=
  flat_map (fun m => sub_flags m lambda_threshold) (data mean)
  ++ flat_map sqrt_flags (data covar)
  ++ flat_map (fun p => div_flags p.1 p.2)
       (zip ((fun m => fsub m lambda_threshold) <$> data mean)
            (fsqrt <$> data covar))
  ++ flat_map ndtr_flags
       (zip_with fdiv ((fun m => fsub m lambda_threshold) <$> data mean)
          (fsqrt <$> data covar)).

(** The probabilities [level_set] goes on with: the plain ones when no
    warning was raised, else the ones of the absolute covariance. *)
Definition probabilities (mean covar : ndarray F) (lambdas : list F)
  : list (ndarray F) :=
  match flat_map (probability_flags mean covar) lambdas with
  | [] => gaussian_probability mean covar <$> lambdas
  | _ :: _ => gaussian_probability mean (np_abs covar) <$> lambdas
  end.

(** The objects the level set and the probabilities are returned as: the
    arrays themselves when there is one level set, else the lists. *)
Definition returned_sets (mean covar : ndarray F) (lambdas gammas : list F)
  : pyobj F * pyobj F :=
  let ps := probabilities mean covar lambdas in
  match zip_with np_gt_scalar ps gammas, ps with
  | [a], p :: _ => (BoolArray a, FloatArray p)
  | sets, _ => (BoolArrays sets, FloatArrays ps)
  end.

(** The tuple items after the level set, by flag. *)
Definition selected (return_proba return_covar return_measure
    return_covar_matrix : bool) (level_value : pyobj F)
    (covar_slice measure_slice : ndarray F) (covar_matrix : option (ndarray F))
  : list (pyobj F) :=
  (if return_proba then [level_value] else [])
  ++ (if return_covar then [FloatArray covar_slice] else [])
  ++ (if return_measure then [FloatArray measure_slice] else [])
  ++ (if return_covar_matrix
      then [from_option FloatArray NoneObj covar_matrix] else []).
End Reading.

(** ** What a method leaves alone *)

Section Observing.
Context {F GP : Type} `{Float64 F} `{Regressor F GP}.

Definition is_append (e : event F) : bool :=
  match e with AppendData _ _ _ _ _ => true | _ => false end.

(** From [w] to [w'] the object is the same and no row was given to the
    regressor. *)
Definition untouched (w w' : world F GP) : Prop :=
  self w' = self w
  ∧ List.filter is_append (trace w') = List.filter is_append (trace w).

Definition read_only {A : Type} (c : M (world F GP) A) : Prop :=
  ∀ w, untouched w (c w).2.

(** The [state_dict] property. *)
Definition state_dict (s : SafetyMeasure F GP) : gmap string F :=
  {[ "gamma_measure" := gamma_measure s ]}.
End Observing.

(** ** DiscreteProductSpace: iteration and sampling *)

Module ProductIteration.
Section Methods.
Context {X I : Type}.

(** [iter(s)] for a sub-space [s], that is what [s.get_index_iterator()]
    yields, and the outcome of [s.sample_idx()] for the sub-space at
    position [k] of [self.sets]. *)
Variable space_iter : DiscreteSpace X I -> list I.
Variable draw : nat -> DiscreteSpace X I -> I.

(** [self.sets] *)
Variable sets : list (DiscreteSpace X I).

(** [itertools.product] of the iterables: the last one advances fastest. *)
Fixpoint itertools_product (iterables : list (list I)) : list (list I) :=
  match iterables with
  | [] => [[]]
  | l :: ls => x ← l; t ← itertools_product ls; [x :: t]
  end.

Definition get_index_iterator : list (list I) :=
  itertools_product (space_iter <$> sets).

Definition sample_idx : list I := imap draw sets.

(** [DiscreteSpace.sample]: [k = self.sample_idx(); return self[k]]. *)
Definition sample : exn + list X :=
  DiscreteProductSpace.getitem sets sample_idx.
End Methods.

(** [DiscreteStateActionSpace(state_space, action_space)]: the product of
    the two. *)
Definition DiscreteStateActionSpace {X I : Type}
    (state_space action_space : DiscreteSpace X I) : list (DiscreteSpace X I) :=
  [state_space; action_space].
End ProductIteration.

(** ** The safety policies *)

Module Policies.
Section Policies.
Context {F A : Type} `{Float64 F}.

(** Sum and product of doubles, the factor [0.001], [np.inf], the draw of
    [np.random.randn] at a flat position, [np.argmax] and [np.argmin] of a
    flattened array that is not empty, and
    [self.stateaction_space.action_space[index]] with the shape of that
    space. *)
Variables fadd fmul : F -> F -> F.
Variable noise_scale : F.
Variable inf : F.
Variable randn : nat -> F.
Variables np_argmax np_argmin : list F -> nat.
Variable action_getitem : list nat -> A.
Variable action_space_shape : list nat.

(** [x] plus [0.001] times a draw of [np.random.randn] of the shape of [x]. *)
Definition add_noise (x : ndarray F) : ndarray F :=
  mk_ndarray (shape x)
    (imap (fun i v => fadd v (fmul (randn i) noise_scale)) (data x)).

(** The multi-index of a flat position in an array of a given shape. *)
Fixpoint unravel (dims : list nat) (i : nat) : list nat :=
  match dims with
  | [] => []
  | d :: dims' => i / prod dims' :: unravel dims' (i mod prod dims')
  end.

(** [np.unravel_index(i, shape)] *)
Definition np_unravel_index (i : nat) (dims : list nat) : exn + list nat :=
  if decide (i < prod dims) then inr (unravel dims i)
  else inl (ValueError "index is out of bounds for the array").

(** The flat positions at which a boolean array holds [True]. *)
Definition true_positions (l : list bool) : list nat :=
  fst <$> List.filter snd (imap (fun i b => (i, b)) l).

(** [np.argwhere(a)]: the multi-indices of the entries that hold. *)
Definition np_argwhere (a : ndarray bool) : list (list nat) :=
  unravel (shape a) <$> true_positions (data a).

(** [a[indexes]] for an array of integer rows: every entry selects along
    the first axis; the result, flattened. *)
Definition take_along_first_axis (a : ndarray F) (indexes : list (list nat))
  : exn + list F :=
  match shape a with
  | [] => inl (IndexError "too many indices for array")
  | _ :: _ =>
      foldr (fun j acc =>
               match subarrays a !! j, acc with
               | Some row, inr vs => inr (data row ++ vs)
               | None, _ => inl (IndexError "index is out of bounds for axis 0")
               | _, inl e => inl e
               end)
        (inr []) (concat indexes)
  end.

(** [SafetyMaximization.get_action]: the caller's array is the state, and
    is perturbed in place. *)
Definition maximization_get_action : M (ndarray F) A :=
  fun cautious_probability =>
    let cautious_probability := add_noise cautious_probability in
    match data cautious_probability with
    | [] =>
        (inl (ValueError "attempt to get argmax of an empty sequence"),
         cautious_probability)
    | _ :: _ =>
        match np_unravel_index (np_argmax (data cautious_probability))
                action_space_shape with
        | inl e => (inl e, cautious_probability)
        | inr action_index =>
            (inr (action_getitem action_index), cautious_probability)
        end
    end.

(** [SafetyActiveSampling.get_action] *)
Definition active_sampling_get_action (safety_covariance : ndarray F)
    (is_cautious : ndarray bool) : exn + option A :=
  if negb (existsb (fun b : bool => b) (data is_cautious)) then inr None
  else
    let safety_covariance := add_noise safety_covariance in
    let cautious_indexes := np_argwhere is_cautious in
    match take_along_first_axis safety_covariance cautious_indexes with
    | inl e => inl e
    | inr [] => inl (ValueError "attempt to get argmax of an empty sequence")
    | inr (v :: vs) =>
        let most_variance_action := np_argmax (v :: vs) in
        match cautious_indexes !! most_variance_action with
        | None => inl (IndexError "index is out of bounds for axis 0")
        | Some action_idx => inr (Some (action_getitem action_idx))
        end
    end.

(** [SafeProjectionPolicy.get_action]: [actions] are the actions the
    iteration over the action space yields, the rows of the array of
    doubles that is built from them, and [norm_to a] is
    [np.linalg.norm(a - to_project)].  Without an action the array has one
    axis and the norm along axis 1 is refused. *)
Definition projection_get_action (actions : list A) (norm_to : A -> F)
    (constraints : ndarray bool) : exn + option A :=
  if negb (existsb (fun b : bool => b) (data constraints)) then inr None
  else
    match actions with
    | [] => inl (AxisError "axis 1 is out of bounds for array of dimension 1")
    | _ :: _ =>
        let distances := norm_to <$> actions in
        let mask := np_squeeze constraints in
        let masked :=
          if decide (shape mask = [length actions])
          then inr (zip_with (fun d (c : bool) => if c then d else inf)
                      distances (data mask))
          else if decide (shape mask = [])
          then inr (match data mask with
                    | [true] => distances
                    | _ => (fun _ => inf) <$> distances
                    end)
          else inl (IndexError "boolean index did not match indexed array") in
        match masked with
        | inl e => inl e
        | inr [] => inl (ValueError "attempt to get argmin of an empty sequence")
        | inr (d :: ds) =>
            match actions !! np_argmin (d :: ds) with
            | None => inl (IndexError "index is out of bounds for axis 0")
            | Some action => inr (Some action)
            end
        end
    end.
End Policies.
End Policies.

(** The flat position of a multi-index in an array of a given shape. *)
Fixpoint ravel (dims idx : list nat) : nat :=
  match dims, idx with
  | _ :: dims', j :: idx' => j * prod dims' + ravel dims' idx'
  | _, _ => 0
  end.

(** ** Sample inputs for the policies *)

Module PolicySamples.
Local Open Scope float_scope.

(** The position of the first entry that [better] prefers to all the
    entries before it and that no later entry is preferred to: [np.argmax]
    and [np.argmin] on arrays without nan. *)
Fixpoint argbest (better : float -> float -> bool) (best : float)
    (position next : nat) (l : list float) : nat :=
  match l with
  | [] => position
  | x :: l' =>
      if better x best then argbest better x next (S next) l'
      else argbest better best position (S next) l'
  end.

Definition argmax (l : list float) : nat :=
  match l with
  | [] => 0%nat
  | x :: l' => argbest (fun x best => best <? x) x 0%nat 1%nat l'
  end.

Definition argmin (l : list float) : nat :=
  match l with
  | [] => 0%nat
  | x :: l' => argbest (fun x best => x <? best) x 0%nat 1%nat l'
  end.

(** Draws that alternate between one half and minus one half. *)
Definition alternating (i : nat) : float := if Nat.even i then 0.5 else -0.5.

(** A grid of actions with step one half on every axis. *)
Definition halves (action_index : list nat) : list float :=
  (fun i => Doubles.of_nat i / 2) <$> action_index.

(** Six probabilities over an action space of shape [(2, 3)]. *)
Definition six : ndarray float :=
  mk_ndarray [2; 3]%nat [0.125; 0.75; 0.25; 0.375; 0.875; 0.5].

Definition variances : ndarray float := Doubles.vec [0.25; 0.75; 0.5].

Definition outer_two : ndarray bool := mk_ndarray [3%nat] [true; false; true].

(** The double nearest to [0.001]. *)
Definition thousandth : float := 0x1.0624dd2f1a9fcp-10.

(** Three actions on a line, the distance to a target, and constraints
    given as a column. *)
Definition line : list float := [0; 0.5; 1].

Definition distance_to (target a : float) : float := abs (a - target).

Definition ends_only : ndarray bool :=
  mk_ndarray [3; 1]%nat [true; false; true].
End PolicySamples.

(** ** The table of hyperparameters that the cart-pole experiment logs *)

Module CartPoleLogging.

(** A Python [str] is a sequence of code points: [len] counts them and
    [format] pads by them. *)
Definition str : Type := list nat.

(** The [str] of a literal written in ASCII. *)
Definition str_of (s : string) : str :=
  nat_of_ascii <$> String.list_ascii_of_string s.

Definition headers : list str :=
  str_of <$> ["    Parameter"; "    Value (transformed)"; "    Constraint"].

(** [zip] of the rows, each as one argument: as many columns as the
    shortest row has items. *)
Definition zip_star {A} (rows : list (list A)) : list (list A) :=
  match rows with
  | [] => []
  | r :: rs =>
      (fun j => omap (fun row : list A => row !! j) rows)
        <$> seq 0 (foldr Nat.min (length r) (length <$> rs))
  end.

(** [max(col, key=len)]: the first item of the greatest length. *)
Definition max_key_len (col : list str) : exn + str :=
  match col with
  | [] => inl (ValueError "max() arg is an empty sequence")
  | x :: l =>
      inr (foldl (fun best y => if length best <? length y then y else best)
             x l)
  end.

(** [[len(str(max(col, key=len))) for col in cols]] *)
Fixpoint cols_lens (cols : list (list str)) : exn + list nat :=
  match cols with
  | [] => inr []
  | col :: cols' =>
      match max_key_len col with
      | inl e => inl e
      | inr longest =>
          match cols_lens cols' with
          | inl e => inl e
          | inr lens => inr (length longest :: lens)
          end
      end
  end.

(** [format(item, width)] of a string with a width that does not start
    with a zero: the string, filled with spaces (code point 32) on the
    right up to [width] code points. *)
Definition format_width (item : str) (width : nat) : str :=
  item ++ replicate (width - length item) 32.

(** [sep.join(items)] *)
Fixpoint join (sep : str) (items : list str) : str :=
  match items with
  | [] => []
  | x :: rest =>
      match rest with
      | [] => x
      | _ :: _ => x ++ sep ++ join sep rest
      end
  end.

(** One line of the table. *)
Definition table_row (lens : list nat) (row : list str) : str :=
  join (str_of "|") (zip_with format_width row lens).

(** [params] are the items of [get_hyperparameters(gp, constraints=True)]
    with [str] applied to the value and to the constraint; [fit_t] is the
    time as [format] writes it with three decimals.  The result is the
    message given to [logging.info]. *)
Definition log_hyperparameters (params : list (str * (str * str)))
    (fit_t : str) : exn + str :=
  let message := str_of "-------- Hyperparameters --------" in
  let params := (fun p => [p.1; p.2.1; p.2.2]) <$> params in
  let rows := headers :: params in
  let cols := zip_star rows in
  match cols_lens cols with
  | inl e => inl e
  | inr lens =>
      let tab :=
        foldl (fun tab row => tab ++ str_of nl ++ table_row lens row) [] rows in
      inr (message ++ tab ++ str_of nl
           ++ str_of "Hyperparameters fitting computation time: " ++ fit_t
           ++ str_of " s")
  end.

(** A kernel with two parameters, as the log shows them. *)
Definition two_parameters : list (str * (str * str)) :=
  [(str_of "likelihood.noise_covar.noise",
    (str_of "0.139", str_of "GreaterThan(1.000E-04)"));
   (str_of "covar_module.outputscale", (str_of "34.0", str_of "Positive()"))].

(** A parameter whose name ends with the Greek letter theta, code point
    952: thirteen code points, as many as the first header. *)
Definition theta_parameter : list (str * (str * str)) :=
  [(str_of "lengthscale_" ++ [952], (str_of "0.5", str_of "Positive()"))].
End CartPoleLogging.

(** ** Doubles with any distribution function *)

Module AnyCdf.
Local Open Scope float_scope.

(** The doubles of [Doubles.float64], with [cdf] for [scipy.stats.norm.cdf]
    at one point and [cdf_flags] for the warnings it raises there: the
    function is C code outside this repository. *)
Definition float64_with (cdf : float -> float)
    (cdf_flags : float -> list string) : Float64 float := {|
  f0 := 0;
  fsub := PrimFloat.sub;
  fdiv := PrimFloat.div;
  fsqrt := PrimFloat.sqrt;
  fabs := PrimFloat.abs;
  fltb := PrimFloat.ltb;
  ndtr := cdf;
  fmean := Doubles.mean_of;
  sub_flags := Doubles.sub_flags_ieee;
  div_flags := Doubles.div_flags_ieee;
  ndtr_flags := cdf_flags;
  mean_flags := fun bs =>
    match bs with
    | [] => ["Mean of empty slice."%string;
             "invalid value encountered in divide"%string]
    | _ :: _ => []
    end
|}.

(** A regressor that answers every query with one mean and one variance. *)
Definition point (mean covar : float) : world float Doubles.replay :=
  mk_world
    (mk_SafetyMeasure Doubles.env3
       (Doubles.mk_replay (Doubles.vec [mean]) (Doubles.vec [covar])
          (Doubles.vec []) [])
       0.5)
    [].

(** The smallest positive double. *)
Definition tiny : float := 0x1p-1074.

(** One state, three actions: an infinite mean where the variance is a
    negative zero, and a mean so large that taking [-0x1p1023] from it
    overflows. *)
Definition degenerate : world float Doubles.replay :=
  Doubles.start [infinity; 0x1p1023; 0] [neg_zero; 1; 1] 0.5.
End AnyCdf.

(** ** Tuples and lists *)

(** [__getitem__] returns a list, [indexof] and [sample_idx] return tuples;
    a tuple and a list are never equal, whatever their items. *)
Inductive pyseq (A : Type) :=
| PyTuple (items : list A)
| PyList (items : list A).
Arguments PyTuple {A} items.
Arguments PyList {A} items.

Definition seq_items {A} (s : pyseq A) : list A :=
  match s with
  | PyTuple items | PyList items => items
  end.

Module ProductObjects.
Section Methods.
Context {X I : Type}.
Variable sets : list (DiscreteSpace X I).

(** [self[index]], with the kind of sequence that comes back. *)
Definition getitem (index_ : pyseq I) : exn + pyseq X :=
  match DiscreteProductSpace.getitem sets (seq_items index_) with
  | inl e => inl e
  | inr items => inr (PyList items)
  end.

(** [self.indexof(x)], with the kind of sequence that comes back. *)
Definition indexof (x : pyseq X) : exn + pyseq I :=
  match DiscreteProductSpace.indexof sets (seq_items x) with
  | inl e => inl e
  | inr idx => inr (PyTuple idx)
  end.

(** [x in self] *)
Definition contains (coordinates : pyseq X) : exn + bool :=
  DiscreteProductSpace.contains sets (seq_items coordinates).
End Methods.
End ProductObjects.

(** * Properties *)

(** ** [update] *)

Section UpdateProperties.
Context {F GP : Type} `{Float64 F} `{Regressor F GP}.
Implicit Types (w : world F GP) (state action new_state : ndarray F).

Lemma update_unfold state action new_state reward failed done measure_ w :
  update state action new_state reward failed done measure_ w =
    let s := self w in
    let target :=
      if negb failed && negb (bool_decide (is_Some measure_))
      then measure (StateArray new_state) f0 (Some (gamma_measure s)) w
      else if negb failed && bool_decide (is_Some measure_)
      then (inr (from_option np_atleast_1d (np_array1 f0) measure_), w)
      else (inr (np_array1 f0), w) in
    match target with
    | (inr v, w1) =>
        (inr v,
         with_row w1 (stateaction_getitem (env s) state action) v
           [negb failed] [negb failed] [failed])
    | (inl e, w1) => (inl e, w1)
    end.
Proof.
  unfold update, bind, get_self, call_append_data, ret. cbn.
  destruct failed, measure_ as [m|]; reflexivity.
Qed.

(** C1. A failed transition writes the target [[0.]], whatever override
    is passed: the call returns [np.array([0.])], and the one row given to
    the regressor sits at [stateaction_space[state, action]] with that
    target and the flags [forgettable=[False]], [make_forget=[False]],
    [unskippable=[True]]. *)
Theorem update_failed_writes_zero
    state action new_state (reward : F) (done : bool)
    (measure_ : option (ndarray F)) w :
  let sa := stateaction_getitem (env (self w)) state action in
  let zero := mk_ndarray [1] [f0] in
  let out := update state action new_state reward true done measure_ w in
  out.1 = inr zero
  ∧ trace out.2 = trace w ++ [AppendData sa zero [false] [false] [true]]
  ∧ gp (self out.2) = append_data (gp (self w)) sa zero [false] [false] [true]
  ∧ env (self out.2) = env (self w)
  ∧ gamma_measure (self out.2) = gamma_measure (self w).
Proof.
  intros sa zero out. subst out. rewrite update_unfold. cbn.
  repeat split.
Qed.

(** C2. A transition that did not fail: without an override the target is
    what [measure(new_state, lambda_threshold=0,
    gamma_threshold=self.gamma_measure)] returns (and an exception of
    [measure] leaves the method before anything is written); with an
    override it is [np.atleast_1d] of the override: the override itself
    when it has an axis, and the array of shape [(1,)] with the same entry
    when it has none.  Either way the row goes to the regressor with
    [forgettable=[True]], [make_forget=[True]], [unskippable=[False]], and
    the target is the value returned. *)
Theorem update_not_failed_target
    state action new_state (reward : F) (done : bool) w :
  let sa := stateaction_getitem (env (self w)) state action in
  let written w1 v :=
    mk_world
      (mk_SafetyMeasure (env (self w1))
         (append_data (gp (self w1)) sa v [true] [true] [false])
         (gamma_measure (self w1)))
      (trace w1 ++ [AppendData sa v [true] [true] [false]]) in
  update state action new_state reward false done None w =
    match measure (StateArray new_state) f0 (Some (gamma_measure (self w))) w with
    | (inr v, w1) => (inr v, written w1 v)
    | (inl e, w1) => (inl e, w1)
    end
  ∧ ∀ m : ndarray F,
      ∃ v : ndarray F,
        update state action new_state reward false done (Some m) w =
          (inr v, written w v)
        ∧ v = np_atleast_1d m
        ∧ data v = data m
        ∧ (shape m = [] → shape v = [1])
        ∧ (shape m ≠ [] → v = m)
        ∧ 1 ≤ ndim v.
Proof.
  intros sa written. split; [| intros m]; rewrite update_unfold.
  - cbn -[measure].
    destruct (measure (StateArray new_state) f0 _ w) as [[e|v] w1];
      reflexivity.
  - exists (np_atleast_1d m). split; [reflexivity|]. split; [reflexivity|].
    unfold np_atleast_1d, ndim.
    destruct (shape m) as [|n sh] eqn:Esh; cbn.
    + repeat split; [congruence | lia].
    + rewrite Esh. repeat split; [discriminate | cbn; lia].
Qed.

(** C10. [reward] and [done] have no influence on [update]: two calls that
    agree on the other arguments, from the same state of the object, end
    with the same result, the same regressor and the same trace. *)
Theorem update_ignores_reward_and_done
    state action new_state (reward1 reward2 : F) (done1 done2 failed : bool)
    (measure_ : option (ndarray F)) w :
  update state action new_state reward1 failed done1 measure_ w =
  update state action new_state reward2 failed done2 measure_ w.
Proof. rewrite !update_unfold. reflexivity. Qed.
End UpdateProperties.

(** ** [level_set] *)

Section LevelSetProperties.
Context {F GP : Type} `{Float64 F} `{Regressor F GP}.
Implicit Types (w : world F GP) (ms cs : ndarray F) (lams gams : list F).

Lemma once_nil seen l : once seen l = [] → Forall (λ x, x ∈ seen) l.
Proof.
  revert seen. induction l as [|x l IH]; intros seen; cbn; [constructor|].
  destruct (decide (x ∈ seen)); [|discriminate].
  intros E. constructor; auto.
Qed.

Lemma recorded_nil l : recorded l = [] ↔ l = [].
Proof.
  split; [|intros ->; reflexivity].
  intros E. apply once_nil in E. destruct l as [|x l]; [reflexivity|].
  inversion E as [|? ? Hx]. inversion Hx.
Qed.

(** The query comes first and is the only call of [query_slices]: it is on
    the trace whether or not unpacking and reshaping succeed. *)
Lemma query_slices_effect state return_covar_matrix w :
  (query_slices state return_covar_matrix w).2 =
    mk_world (self w)
      (trace w ++ [Query (level_set_index state) true return_covar_matrix]).
Proof.
  unfold query_slices, bind, get_self, call_query, lift, ret, raise. cbn.
  destruct return_covar_matrix;
    destruct (query _ _ _ _ _) as [|m [|c [|cm [|? ?]]]]; cbn; try reflexivity;
    repeat (match goal with
            | |- context [reshape_rows ?t ?a] =>
                destruct (reshape_rows t a); cbn
            end; try reflexivity).
Qed.

Lemma fmap_zip_with_fmap {A B C D E : Type}
    (h : E → E) (k : C → D → E) (f : A → C) (g : B → D) (a : list A) (b : list B) :
  h <$> zip_with k (f <$> a) (g <$> b) = zip_with (λ x y, h (k (f x) (g y))) a b.
Proof.
  revert b. induction a as [|x a IH]; intros [|y b]; cbn; try reflexivity.
  now rewrite IH.
Qed.

Lemma cdf_value_same_shape ms cov lam :
  shape ms = shape cov →
  cdf_value ms cov lam =
    inr (gaussian_probability ms cov lam, probability_flags ms cov lam).
Proof.
  intros E. unfold cdf_value, np_sub_scalar, np_sqrt, np_divide, norm_cdf.
  cbn. rewrite decide_True by exact E.
  unfold gaussian_probability, probability_flags, np_map. cbn.
  rewrite fmap_zip_with_fmap. reflexivity.
Qed.

Lemma cdf_list_same_shape ms cov lams :
  shape ms = shape cov →
  cdf_list ms cov lams =
    inr (gaussian_probability ms cov <$> lams,
         flat_map (probability_flags ms cov) lams).
Proof.
  intros E. induction lams as [|lam lams IH]; [reflexivity|].
  cbn [cdf_list]. rewrite cdf_value_same_shape, IH by exact E. reflexivity.
Qed.

Lemma level_values_same_shape ms cs lams w :
  shape ms = shape cs →
  level_values ms cs lams w =
    (inr (probabilities ms cs lams),
     mk_world (self w)
       (trace w ++
          match flat_map (probability_flags ms cs) lams with
          | [] => []
          | _ :: _ =>
              [Warn UserWarning
                 (warning_text
                    (recorded (flat_map (probability_flags ms cs) lams)))]
          end)).
Proof.
  intros E. unfold level_values, probabilities, bind, lift.
  rewrite cdf_list_same_shape by exact E. cbn.
  destruct (flat_map (probability_flags ms cs) lams) as [|x l] eqn:El.
  - cbn. rewrite app_nil_r. destruct w; reflexivity.
  - destruct (recorded (x :: l)) as [|y r] eqn:Er.
    { apply recorded_nil in Er. discriminate. }
    cbn. rewrite cdf_list_same_shape by exact E. reflexivity.
Qed.

Lemma unwrap_single_zip (ps : list (ndarray F)) gams :
  let sets := zip_with np_gt_scalar ps gams in
  unwrap_single sets ps =
    inr (match sets, ps with
         | [a], p :: _ => (BoolArray a, FloatArray p)
         | _, _ => (BoolArrays sets, FloatArrays ps)
         end).
Proof.
  intros sets. subst sets. unfold unwrap_single.
  destruct ps as [|p ps], gams as [|g gams]; cbn; try reflexivity.
  destruct (zip_with np_gt_scalar ps gams) as [|b l] eqn:E; cbn; reflexivity.
Qed.

(** What a call does once the regressor answered in shape. *)
Lemma level_set_run state lam gam rp rc rm rcm w ms cs cm :
  (query_slices state rcm w).1 = inr (ms, cs, cm) →
  shape ms = shape cs →
  let lams := threshold_list lam in
  let gams := threshold_list gam in
  let '(ls, lv) := returned_sets ms cs lams gams in
  level_set state lam gam rp rc rm rcm w =
    (inr (if rp || rc || rm || rcm
          then Tuple (ls :: selected rp rc rm rcm lv cs ms cm)
          else Bare ls),
     mk_world (self w)
       (trace w ++ [Query (level_set_index state) true rcm] ++
          match flat_map (probability_flags ms cs) lams with
          | [] => []
          | _ :: _ =>
              [Warn UserWarning
                 (warning_text
                    (recorded (flat_map (probability_flags ms cs) lams)))]
          end)).
Proof.
  intros Hq Hs lams gams.
  pose proof (query_slices_effect state rcm w) as Hw.
  destruct (query_slices state rcm w) as [r w1] eqn:Eq. cbn in Hq, Hw.
  subst r w1.
  unfold level_set, bind. rewrite Eq.
  rewrite level_values_same_shape by exact Hs. cbn [self trace].
  fold lams gams. unfold lift.
  rewrite unwrap_single_zip. unfold returned_sets.
  rewrite <- app_assoc.
  destruct (zip_with np_gt_scalar (probabilities ms cs lams) gams)
    as [|a [|a' l]], (probabilities ms cs lams) as [|p ps];
    unfold ret, selected; destruct rp, rc, rm, rcm; reflexivity.
Qed.

Lemma level_sets_of_returned ms cs lams gams (any : bool) rest :
  let '(ls, lv) := returned_sets ms cs lams gams in
  level_sets_of (if any then Tuple (ls :: rest lv) else Bare ls) =
    zip_with np_gt_scalar (probabilities ms cs lams) gams.
Proof.
  unfold returned_sets.
  destruct (zip_with np_gt_scalar (probabilities ms cs lams) gams)
    as [|a [|a' l]], (probabilities ms cs lams) as [|p ps];
    destruct any; reflexivity.
Qed.

Lemma flat_map_nil_lookup {A B} (f : A → list B) (l : list A) i x :
  flat_map f l = [] → l !! i = Some x → f x = [].
Proof.
  revert i. induction l as [|y l IH]; intros i E Hx; [discriminate|].
  cbn in E. apply app_eq_nil in E as [E1 E2].
  destruct i as [|i]; cbn in Hx; [congruence | eauto].
Qed.

Lemma probability_flags_nil_sqrt ms cs lam :
  probability_flags ms cs lam = [] →
  Forall (λ c, fltb c f0 = false) (data cs).
Proof.
  unfold probability_flags. intros E.
  apply app_eq_nil in E as [_ E]. apply app_eq_nil in E as [E _].
  apply Forall_lookup_2. intros i c Hc.
  pose proof (flat_map_nil_lookup _ _ _ _ E Hc) as Hf.
  unfold sqrt_flags in Hf. destruct (fltb c f0); [discriminate | reflexivity].
Qed.

Lemma np_abs_fixed cs :
  Forall (λ c, fabs c = c) (data cs) → np_abs cs = cs.
Proof.
  destruct cs as [sh d]. unfold np_abs, np_map. cbn. intros Hd. f_equal.
  induction Hd as [|c d Hc Hd IH]; cbn; [reflexivity|]. now rewrite Hc, IH.
Qed.

(** With a list of thresholds, the probabilities for one of them are the
    ones a call with this threshold alone goes on with, as long as the
    absolute value leaves alone the variances whose square root raised no
    warning. *)
Lemma probabilities_pointwise ms cs lams i lam :
  Forall (λ c, fltb c f0 = false → fabs c = c) (data cs) →
  lams !! i = Some lam →
  ∃ p, probabilities ms cs lams !! i = Some p
       ∧ probabilities ms cs [lam] = [p].
Proof.
  intros Habs Hi. unfold probabilities. cbn [flat_map]. rewrite app_nil_r.
  destruct (flat_map (probability_flags ms cs) lams) as [|x l] eqn:Eall.
  - rewrite (flat_map_nil_lookup _ _ _ _ Eall Hi).
    exists (gaussian_probability ms cs lam). split; [|reflexivity].
    now rewrite list_lookup_fmap, Hi.
  - destruct (probability_flags ms cs lam) as [|y l'] eqn:Eone.
    + exists (gaussian_probability ms cs lam). split; [|reflexivity].
      rewrite list_lookup_fmap, Hi. cbn. do 2 f_equal.
      apply np_abs_fixed. apply probability_flags_nil_sqrt in Eone.
      apply Forall_lookup_2. intros j c Hc.
      eapply Forall_lookup_1 in Habs; [|exact Hc].
      eapply Forall_lookup_1 in Eone; [|exact Hc]. auto.
    + exists (gaussian_probability ms (np_abs cs) lam). split; [|reflexivity].
      now rewrite list_lookup_fmap, Hi.
Qed.

Lemma query_slices_matrix state rcm w ms cs cm :
  (query_slices state rcm w).1 = inr (ms, cs, cm) →
  if rcm then is_Some cm else cm = None.
Proof.
  unfold query_slices, bind, get_self, call_query, lift, ret, raise. cbn.
  destruct rcm;
    destruct (query _ _ _ _ _) as [|m [|c [|cm' [|? ?]]]]; cbn;
    try discriminate;
    repeat (match goal with
            | |- context [reshape_rows ?t ?a] =>
                destruct (reshape_rows t a); cbn
            end; try discriminate);
    intros [= <- <- <-]; eauto.
Qed.

Lemma selected_arrays (rc rm rcm : bool) lv cs ms (cm : option (ndarray F)) :
  (if rcm then is_Some cm else cm = None) →
  Forall (λ v, is_array v = true) (selected false rc rm rcm lv cs ms cm).
Proof.
  intros Hcm. unfold selected.
  destruct rc, rm, rcm; cbn; repeat constructor.
  all: destruct Hcm as [m ->]; reflexivity.
Qed.

Lemma length_probabilities ms cs lams :
  length (probabilities ms cs lams) = length lams.
Proof.
  unfold probabilities.
  destruct (flat_map (probability_flags ms cs) lams); now rewrite length_fmap.
Qed.

Lemma probabilities_lookup ms cs lams i lam :
  lams !! i = Some lam →
  ∃ p, probabilities ms cs lams !! i = Some p
       ∧ (p = gaussian_probability ms cs lam
          ∨ p = gaussian_probability ms (np_abs cs) lam).
Proof.
  intros Hi. unfold probabilities.
  destruct (flat_map (probability_flags ms cs) lams);
    rewrite list_lookup_fmap, Hi; cbn; eauto.
Qed.

(** X18.  When one threshold pair is requested every object
    returned is a bare array.  When [k > 1] pairs are requested the level
    set and the probability are lists of [k] arrays, one per pair in the
    order of the input, and the covariance, the measure and the covariance
    matrix, which do not depend on the thresholds, are still bare
    arrays. *)
Theorem level_set_components state lam gam rp rc rm rcm w ms cs cm :
  (query_slices state rcm w).1 = inr (ms, cs, cm) →
  shape ms = shape cs →
  let lams := threshold_list lam in
  let gams := threshold_list gam in
  ∃ r, (level_set state lam gam rp rc rm rcm w).1 = inr r
    ∧ (length lams = 1 → length gams = 1 →
         Forall (λ v, is_array v = true) (components r))
    ∧ (1 < length lams → length gams = length lams →
         ∃ sets ps rest,
           components r =
             BoolArrays sets :: (if rp then [FloatArrays ps] else []) ++ rest
           ∧ rest = selected false rc rm rcm NoneObj cs ms cm
           ∧ Forall (λ v, is_array v = true) rest
           ∧ length sets = length lams
           ∧ length ps = length lams
           ∧ ∀ i lam_i gam_i,
               lams !! i = Some lam_i → gams !! i = Some gam_i →
               ∃ p, ps !! i = Some p
                    ∧ sets !! i = Some (np_gt_scalar p gam_i)
                    ∧ (p = gaussian_probability ms cs lam_i
                       ∨ p = gaussian_probability ms (np_abs cs) lam_i)).
Proof.
  intros Hq Hs lams gams.
  pose proof (level_set_run state lam gam rp rc rm rcm w ms cs cm Hq Hs) as R.
  cbv zeta in R. fold lams gams in R.
  pose proof (query_slices_matrix _ _ _ _ _ _ Hq) as Hcm.
  pose proof (length_probabilities ms cs lams) as Hlp.
  unfold returned_sets in R.
  destruct (zip_with np_gt_scalar (probabilities ms cs lams) gams)
    as [|a [|a' l]] eqn:Ez, (probabilities ms cs lams) as [|p ps] eqn:Ep;
    rewrite R; cbn [fst]; eexists; (split; [reflexivity|]).
  all: pose proof (f_equal length Ez) as Hz; rewrite length_zip_with in Hz;
    cbn [length] in Hz, Hlp.
  all: split; [intros H1 H2; try lia | intros H1 H2; try lia].
  - (* one pair *)
    destruct rp, rc, rm, rcm; cbn; repeat constructor;
      try (destruct Hcm as [m ->]; reflexivity).
  - (* k > 1 pairs *)
    exists (a :: a' :: l), (p :: ps), (selected false rc rm rcm NoneObj cs ms cm).
    split; [destruct rp, rc, rm, rcm; reflexivity|].
    split; [reflexivity|]. split; [now apply selected_arrays|].
    split; [cbn; lia|]. split; [cbn; lia|].
    intros i lam_i gam_i Hi Hg.
    destruct (probabilities_lookup ms cs lams i lam_i Hi) as (q & Hq' & Hor).
    rewrite Ep in Hq'. exists q. split; [exact Hq'|]. split; [|exact Hor].
    rewrite <- Ez, lookup_zip_with, Hq'. cbn. now rewrite Hg.
Qed.
(** C5. The shape of the result.  With no flag set the level set comes
    back bare; with a flag set a tuple comes back: the level set first,
    then the probability, the covariance, the measure and the covariance
    matrix, each one there exactly when its flag is set, in this order.
    The level set is the array, or the list of arrays, of the entries where
    the probability is above [gamma_threshold]; the item of [return_proba]
    is the array, or the list of arrays, of these probabilities; neither
    depends on the flags [return_proba], [return_covar],
    [return_measure]. *)
Theorem level_set_return_shape state lam gam rcm w ms cs cm :
  (query_slices state rcm w).1 = inr (ms, cs, cm) →
  shape ms = shape cs →
  let ps := probabilities ms cs (threshold_list lam) in
  let sets := zip_with np_gt_scalar ps (threshold_list gam) in
  ∃ ls lv : pyobj F,
    level_sets_of (Bare ls) = sets
    ∧ (length sets = 1 →
       ∃ a p, sets = [a] ∧ head ps = Some p
              ∧ ls = BoolArray a ∧ lv = FloatArray p)
    ∧ (length sets ≠ 1 → ls = BoolArrays sets ∧ lv = FloatArrays ps)
    ∧ ∀ rp rc rm : bool,
        (level_set state lam gam rp rc rm rcm w).1 =
          inr (if rp || rc || rm || rcm
               then Tuple ([ls]
                           ++ (if rp then [lv] else [])
                           ++ (if rc then [FloatArray cs] else [])
                           ++ (if rm then [FloatArray ms] else [])
                           ++ (if rcm then [from_option FloatArray NoneObj cm]
                               else []))
               else Bare ls).
Proof.
  intros Hq Hs ps sets.
  pose proof (level_sets_of_returned ms cs (threshold_list lam)
                (threshold_list gam) false (λ _, [])) as L.
  pose proof (λ rp rc rm,
                level_set_run state lam gam rp rc rm rcm w ms cs cm Hq Hs) as R.
  cbv zeta in R.
  assert (length sets ≤ length ps) as Hle
    by (unfold sets; rewrite length_zip_with; lia).
  unfold returned_sets in L, R. fold ps in L, R. fold sets in L, R.
  clearbody sets ps.
  destruct sets as [|a [|a' l]], ps as [|p ps']; cbn [length] in Hle;
    try lia; cbn in L.
  - exists (BoolArrays []), (FloatArrays []).
    split; [exact L|]. split; [discriminate|]. split; [split; reflexivity|].
    intros rp rc rm. rewrite R. reflexivity.
  - exists (BoolArrays []), (FloatArrays (p :: ps')).
    split; [exact L|]. split; [discriminate|]. split; [split; reflexivity|].
    intros rp rc rm. rewrite R. reflexivity.
  - exists (BoolArray a), (FloatArray p).
    split; [exact L|]. split; [intros _; exists a, p; repeat split|].
    split; [intros Hne; exfalso; apply Hne; reflexivity|].
    intros rp rc rm. rewrite R. reflexivity.
  - exists (BoolArrays (a :: a' :: l)), (FloatArrays (p :: ps')).
    split; [exact L|]. split; [discriminate|]. split; [split; reflexivity|].
    intros rp rc rm. rewrite R. reflexivity.
Qed.

Lemma gaussian_probability_abs ms cs lam :
  data (gaussian_probability ms (np_abs cs) lam) =
    zip_with (λ m c, ndtr (fdiv (fsub m lam) (fsqrt (fabs c))))
      (data ms) (data cs).
Proof.
  unfold gaussian_probability, np_abs, np_map. cbn.
  generalize (data ms). induction (data cs) as [|c d IH]; intros [|m l]; cbn;
    try reflexivity.
  now rewrite IH.
Qed.

(** X1. A negative variance does not stop [level_set]: the probabilities are
    recomputed as the distribution function of
    [(mean - lambda) / sqrt(abs(covariance))] for every threshold, the level
    sets are taken from them, and one warning is issued for the call, made
    from the texts that were recorded. *)
Lemma level_set_negative_covariance state lam gam rp rc rm rcm w ms cs cm c :
  (query_slices state rcm w).1 = inr (ms, cs, cm) →
  shape ms = shape cs →
  c ∈ data cs → fltb c f0 = true →
  threshold_list lam ≠ [] →
  let lams := threshold_list lam in
  let recorded_ := recorded (flat_map (probability_flags ms cs) lams) in
  let out := level_set state lam gam rp rc rm rcm w in
  ∃ r, out.1 = inr r
    ∧ level_sets_of r =
        zip_with np_gt_scalar (gaussian_probability ms (np_abs cs) <$> lams)
          (threshold_list gam)
    ∧ List.filter is_warning (trace out.2) =
        List.filter is_warning (trace w)
        ++ [Warn UserWarning (warning_text recorded_)].
Proof.
  intros Hq Hs Hc Hneg Hl lams recorded_ out. subst out recorded_.
  pose proof (level_set_run state lam gam rp rc rm rcm w ms cs cm Hq Hs) as R.
  cbv zeta in R. fold lams in R.
  pose proof (level_sets_of_returned ms cs lams (threshold_list gam)
                (rp || rc || rm || rcm)
                (λ lv, selected rp rc rm rcm lv cs ms cm)) as L.
  destruct (returned_sets ms cs lams (threshold_list gam)) as [ls lv].
  assert (flat_map (probability_flags ms cs) lams ≠ []) as Hw.
  { destruct lams as [|l0 lams'] eqn:El; [contradiction|].
    cbn [flat_map]. intros E. apply app_eq_nil in E as [E _].
    apply probability_flags_nil_sqrt in E.
    apply list_elem_of_lookup in Hc as [i Hi].
    eapply Forall_lookup_1 in E; [|exact Hi]. congruence. }
  rewrite R. cbn [fst snd trace]. eexists. split; [reflexivity|].
  rewrite L. unfold probabilities.
  destruct (flat_map (probability_flags ms cs) lams) as [|x l];
    [contradiction|].
  split; [reflexivity|].
  rewrite !List.filter_app. reflexivity.
Qed.
End LevelSetProperties.

(** ** [is_in_level_set] *)

Section IsInLevelSetProperties.
Context {F GP : Type} `{Float64 F} `{Regressor F GP}.

(** The value of [is_in_level_set] and what it leaves on the trace, when
    the regressor answers with a mean and a covariance of one shape. *)
Lemma is_in_level_set_run (state action : ndarray F) (lam gam : F)
    (w : world F GP) (m c : ndarray F) :
  query (env (self w)) (gp (self w))
    (IdxTuple [IdxArray state; IdxArray action]) true false = [m; c] →
  shape m = shape c →
  is_in_level_set state action lam gam w =
    (inr (np_squeeze (np_gt_scalar (gaussian_probability m c lam) gam)),
     mk_world (self w)
       (trace w
        ++ [Query (IdxTuple [IdxArray state; IdxArray action]) true false]
        ++ (Warn RuntimeWarning <$> recorded (probability_flags m c lam)))).
Proof.
  intros Hq Hs.
  unfold is_in_level_set, bind, call_query, lift, numpy_warn, ret.
  cbn -[cdf_value]. rewrite Hq. cbn -[cdf_value].
  rewrite cdf_value_same_shape by exact Hs.
  cbn. now rewrite <- app_assoc.
Qed.
End IsInLevelSetProperties.

(** ** [MaternSafety.load] *)

Section LoadProperties.
Context {F GP : Type} `{MaternGP F GP}.
Variables GP_SAVE_NAME SAVE_NAME : string.
Variable joinpath : string → string → string.
Variable json_loads : string → exn + gmap string F.

(** C7. [load] without a [gamma_measure]: when the file of the saved
    [state_dict] is absent the call raises [ValueError], with a message
    that holds the path of the file, and no value is put in its place; when
    the file is there and holds a [state_dict] with the entry, the model
    returned has the saved [gamma_measure], and the regressor that was
    loaded. *)
Theorem load_gamma_measure (files : gmap string string) (load_folder : string)
    (env_ : Env F) (x_seed y_seed : option (ndarray F)) :
  let model_save_path := joinpath load_folder SAVE_NAME in
  let loaded :=
    load GP_SAVE_NAME SAVE_NAME joinpath json_loads
      files load_folder env_ None x_seed y_seed in
  (files !! model_save_path = None →
     loaded =
       inl (ValueError
              ("Could not find file " +:+ model_save_path
               +:+ ". Specify gamma_measure instead to load this model")))
  ∧ (∀ text state_dict g,
       files !! model_save_path = Some text →
       json_loads text = inr state_dict →
       state_dict !! "gamma_measure" = Some g →
       ∃ model, loaded = inr model
         ∧ gamma_measure model = g
         ∧ env model = env_
         ∧ gp model =
             MaternGP_load files (joinpath load_folder GP_SAVE_NAME)
               x_seed y_seed
               (match x_seed with None => true | Some _ => false end)).
Proof.
  intros model_save_path loaded. subst loaded. unfold load, read_gamma_measure.
  fold model_save_path. split.
  - intros ->. destruct x_seed; reflexivity.
  - intros text state_dict g -> -> ->. destruct x_seed; eexists; cbn; eauto.
Qed.
End LoadProperties.

(** ** [DiscreteProductSpace] *)

Section ProductSpaceProperties.
Context {X I : Type}.
Implicit Types (sets : list (DiscreteSpace X I)) (x : list X).

(** X2. With as many coordinates as sub-spaces, [indexof] gives the index of
    each coordinate in its sub-space, in a tuple as long as the input. *)
Lemma indexof_same_length sets x :
  length x = length sets →
  ∃ idx, DiscreteProductSpace.indexof sets x = inr idx
    ∧ length idx = length x
    ∧ ∀ i xi s, x !! i = Some xi → sets !! i = Some s →
        idx !! i = Some (space_indexof s xi).
Proof.
  intros Hlen. unfold DiscreteProductSpace.indexof.
  rewrite decide_False by (intros Hne; apply Hne; exact Hlen).
  eexists. split; [reflexivity|]. split.
  - rewrite length_fmap, length_zip. lia.
  - intros i xi s Hx Hs. rewrite list_lookup_fmap.
    rewrite (proj2 (lookup_zip_Some x sets i xi s) (conj Hx Hs)). reflexivity.
Qed.

(** With another number of coordinates, [contains] and [__getitem__] raise
    [ValueError] with the size-mismatch message; [indexof] raises
    [NameError]. *)
Lemma indexof_size_mismatch sets x (index_ : list I) :
  length x ≠ length sets →
  length index_ ≠ length sets →
  DiscreteProductSpace.indexof sets x
    = inl (NameError "name 'coordinates' is not defined")
  ∧ DiscreteProductSpace.contains sets x
    = inl (ValueError
             (DiscreteProductSpace.size_mismatch (length sets) (length x)))
  ∧ DiscreteProductSpace.getitem sets index_
    = inl (ValueError
             (DiscreteProductSpace.size_mismatch (length sets) (length index_))).
Proof.
  intros Hx Hi.
  unfold DiscreteProductSpace.indexof, DiscreteProductSpace.contains,
    DiscreteProductSpace.getitem.
  rewrite !(decide_True (P := length x ≠ length sets)) by exact Hx.
  rewrite decide_True by exact Hi. auto.
Qed.
End ProductSpaceProperties.

(** ** Runs on doubles *)

Section Runs.
Import Doubles.
Local Open Scope float_scope.

(** [level_set_return_shape] on the calm regressor, one threshold pair. *)
Lemma level_set_return_shape_witness :
  let ms := mk_ndarray [1; 3]%nat [1; 0.5; -1] in
  let cs := mk_ndarray [1; 3]%nat [0.25; 0.25; 0.25] in
  let ps := probabilities ms cs (threshold_list (Single 0)) in
  let sets := zip_with np_gt_scalar ps (threshold_list (Single 0.5)) in
  ∃ ls lv : pyobj float,
    level_sets_of (Bare ls) = sets
    ∧ (length sets = 1%nat →
       ∃ a p, sets = [a] ∧ head ps = Some p
              ∧ ls = BoolArray a ∧ lv = FloatArray p)
    ∧ (length sets ≠ 1%nat → ls = BoolArrays sets ∧ lv = FloatArrays ps)
    ∧ ∀ rp rc rm : bool,
        (level_set here (Single 0) (Single 0.5) rp rc rm false calm).1 =
          inr (if rp || rc || rm || false
               then Tuple ([ls]
                           ++ (if rp then [lv] else [])
                           ++ (if rc then [FloatArray cs] else [])
                           ++ (if rm then [FloatArray ms] else [])
                           ++ (if false then [from_option FloatArray NoneObj None]
                               else []))
               else Bare ls).
Proof.
  apply (level_set_return_shape here (Single 0) (Single 0.5) false calm
           (mk_ndarray [1; 3]%nat [1; 0.5; -1])
           (mk_ndarray [1; 3]%nat [0.25; 0.25; 0.25]) None);
    reflexivity.
Defined.


(** C4, on a run.  With two threshold pairs and [return_covar] set,
    the level sets come back as a list of two arrays and the covariance as
    one bare array, which is not a list of two arrays. *)
Lemma level_set_covariance_is_not_listed :
  (level_set here (Several [0; 1]) (Several [0.5; 0.5])
     false true false false calm).1 =
    inr (Tuple [BoolArrays [mk_ndarray [1; 3]%nat [true; true; false];
                            mk_ndarray [1; 3]%nat [false; false; false]];
                FloatArray (mk_ndarray [1; 3]%nat [0.25; 0.25; 0.25])])
  ∧ is_array_list 2 (FloatArray (mk_ndarray [1; 3]%nat [0.25; 0.25; 0.25]))
    = false
  ∧ ¬ Forall (λ v : pyobj float, is_array_list 2 v = true)
        [BoolArrays [mk_ndarray [1; 3]%nat [true; true; false];
                     mk_ndarray [1; 3]%nat [false; false; false]];
         FloatArray (mk_ndarray [1; 3]%nat [0.25; 0.25; 0.25])].
Proof.
  split; [vm_compute; reflexivity|]. split; [reflexivity|].
  intros Hall. inversion Hall as [|? ? _ Hrest]. inversion Hrest as [|? ? Hc _].
  discriminate Hc.
Qed.

(** [level_set_components] on the regressor with a negative variance, with
    two threshold pairs. *)
Lemma level_set_components_witness :
  let lams := threshold_list (Several [0; 1]) in
  let gams := threshold_list (Several [0.5; 0.25]) in
  let ms := mk_ndarray [1; 3]%nat [1; 0.5; -1] in
  let cs := mk_ndarray [1; 3]%nat [0.25; -0.25; 0.25] in
  ∃ r, (level_set here (Several [0; 1]) (Several [0.5; 0.25])
          true true false false ill).1 = inr r
    ∧ (length lams = 1%nat → length gams = 1%nat →
         Forall (λ v, is_array v = true) (components r))
    ∧ ((1 < length lams)%nat → length gams = length lams →
         ∃ sets ps rest,
           components r =
             BoolArrays sets :: (if true then [FloatArrays ps] else []) ++ rest
           ∧ rest = selected false true false false NoneObj cs ms None
           ∧ Forall (λ v, is_array v = true) rest
           ∧ length sets = length lams
           ∧ length ps = length lams
           ∧ ∀ i lam_i gam_i,
               lams !! i = Some lam_i → gams !! i = Some gam_i →
               ∃ p, ps !! i = Some p
                    ∧ sets !! i = Some (np_gt_scalar p gam_i)
                    ∧ (p = gaussian_probability ms cs lam_i
                       ∨ p = gaussian_probability ms (np_abs cs) lam_i)).
Proof.
  apply (level_set_components here (Several [0; 1]) (Several [0.5; 0.25])
           true true false false ill
           (mk_ndarray [1; 3]%nat [1; 0.5; -1])
           (mk_ndarray [1; 3]%nat [0.25; -0.25; 0.25]) None);
    reflexivity.
Defined.

(** C6, on a run.  The variance of the second action is negative.  The call
    returns, and one warning is issued; numpy's text was
    [invalid value encountered in sqrt], and the warning issued gives it
    without its last letter: [s[:-2]] takes two characters off a text that
    ends with one line feed. *)
Theorem level_set_warning_drops_a_letter :
  let out := level_set here (Single 0) (Single 0.5) false false false false ill in
  let ms := mk_ndarray [1; 3]%nat [1; 0.5; -1] in
  let cs := mk_ndarray [1; 3]%nat [0.25; -0.25; 0.25] in
  recorded (probability_flags ms cs 0) = ["invalid value encountered in sqrt"%string]
  ∧ (∃ a, out.1 = inr (Bare (BoolArray a)))
  ∧ List.filter is_warning (trace out.2) =
      [Warn UserWarning
         ("Warning encountered in cumulative density function computation. "
          +:+ nl
          +:+ "This may be caused by an ill-conditioned kernel matrix causing a negative covariance."
          +:+ nl
          +:+ "Original warning: invalid value encountered in sqr")%string].
Proof.
  split; [vm_compute; reflexivity|].
  split; [eexists; vm_compute; reflexivity | vm_compute; reflexivity].
Qed.
(** [load_gamma_measure] on a folder without the file, and on a folder
    where the file holds [gamma_measure] one half. *)
Lemma load_gamma_measure_witness :
  load "gp.pth" "model.json" slash loads_half ∅ "run" env3 None None None
    = inl (ValueError
             "Could not find file run/model.json. Specify gamma_measure instead to load this model")
  ∧ ∃ model,
      load "gp.pth" "model.json" slash loads_half
        {[ "run/model.json"%string := saved_half ]} "run" env3 None None None
        = inr model
      ∧ gamma_measure model = 0.5.
Proof.
  split.
  - apply (proj1 (load_gamma_measure "gp.pth" "model.json" slash loads_half
                    ∅ "run" env3 None None)).
    reflexivity.
  - destruct (proj2 (load_gamma_measure "gp.pth" "model.json" slash loads_half
                       {[ "run/model.json"%string := saved_half ]}
                       "run" env3 None None)
                saved_half {[ "gamma_measure"%string := 0.5 ]} 0.5)
      as (model & Hmodel & Hgamma & _); [reflexivity | reflexivity | reflexivity |].
    exists model. split; [exact Hmodel | exact Hgamma].
Defined.

(** C9, on a run.  A product of two grids is asked for the index of a
    single coordinate: [contains] and [__getitem__] raise [ValueError]
    with the size-mismatch message, [indexof] raises [NameError] for the
    name [coordinates], which its message reads and nothing binds.  With
    two coordinates [indexof] answers with the two indices. *)
Theorem indexof_raises_NameError_on_size_mismatch :
  let sets := [grid 3; grid 2] in
  DiscreteProductSpace.indexof sets [1%nat]
    = inl (NameError "name 'coordinates' is not defined")
  ∧ DiscreteProductSpace.contains sets [1%nat]
    = inl (ValueError "Size mismatch: expected 2 coordinates, received 1")
  ∧ DiscreteProductSpace.getitem sets [1%nat]
    = inl (ValueError "Size mismatch: expected 2 coordinates, received 1")
  ∧ DiscreteProductSpace.indexof sets [2%nat; 1%nat] = inr [2%nat; 1%nat].
Proof. repeat split; reflexivity. Qed.
(** [level_set_negative_covariance] on the regressor with a negative
    variance. *)
Lemma level_set_negative_covariance_witness :
  let lams := threshold_list (Single 0) in
  let ms := mk_ndarray [1; 3]%nat [1; 0.5; -1] in
  let cs := mk_ndarray [1; 3]%nat [0.25; -0.25; 0.25] in
  let recorded_ := recorded (flat_map (probability_flags ms cs) lams) in
  let out := level_set here (Single 0) (Single 0.5) true false false false ill in
  ∃ r, out.1 = inr r
    ∧ level_sets_of r =
        zip_with np_gt_scalar (gaussian_probability ms (np_abs cs) <$> lams)
          (threshold_list (Single 0.5))
    ∧ List.filter is_warning (trace out.2) =
        List.filter is_warning (trace ill)
        ++ [Warn UserWarning (warning_text recorded_)].
Proof.
  apply (level_set_negative_covariance here (Single 0) (Single 0.5)
           true false false false ill
           (mk_ndarray [1; 3]%nat [1; 0.5; -1])
           (mk_ndarray [1; 3]%nat [0.25; -0.25; 0.25]) None (-0.25)).
  - reflexivity.
  - reflexivity.
  - cbn. apply list_elem_of_further, list_elem_of_here.
  - reflexivity.
  - discriminate.
Defined.

(** [indexof_same_length] on a product of two grids. *)
Lemma indexof_same_length_witness :
  ∃ idx, DiscreteProductSpace.indexof [grid 3; grid 2] [2%nat; 1%nat] = inr idx
    ∧ length idx = length [2%nat; 1%nat]
    ∧ ∀ i xi s, [2%nat; 1%nat] !! i = Some xi → [grid 3; grid 2] !! i = Some s →
        idx !! i = Some (space_indexof s xi).
Proof.
  apply (indexof_same_length [grid 3; grid 2] [2%nat; 1%nat]). reflexivity.
Defined.
End Runs.

(** ** Queries do not write *)

Section ReadOnly.
Context {F GP : Type} `{Float64 F} `{Regressor F GP}.
Implicit Types (w : world F GP).

Lemma untouched_refl w : untouched w w.
Proof. split; reflexivity. Qed.

Lemma untouched_trans w1 w2 w3 :
  untouched w1 w2 → untouched w2 w3 → untouched w1 w3.
Proof. intros [E1 E2] [E3 E4]. split; congruence. Qed.

Lemma read_only_ret {A} (x : A) : read_only (GP := GP) (ret (W := world F GP) x).
Proof. intros w. apply untouched_refl. Qed.

Lemma read_only_raise {A} e : read_only (GP := GP) (raise (W := world F GP) (A := A) e).
Proof. intros w. apply untouched_refl. Qed.

Lemma read_only_lift {A} (r : exn + A) : read_only (GP := GP) (lift (W := world F GP) r).
Proof. destruct r; [apply read_only_raise | apply read_only_ret]. Qed.

Lemma read_only_bind {A B} (c : M (world F GP) A) (k : A → M (world F GP) B) :
  read_only c → (∀ x, read_only (GP := GP) (k x)) → read_only (GP := GP) (bind c k).
Proof.
  intros Hc Hk w. unfold bind. specialize (Hc w).
  destruct (c w) as [[e|x] w1]; cbn in *; [exact Hc|].
  eapply untouched_trans; [exact Hc | apply Hk].
Qed.

Lemma read_only_get_self : read_only (GP := GP) (get_self (F := F) (GP := GP)).
Proof. intros w. apply untouched_refl. Qed.

Lemma untouched_events w (es : list (event F)) :
  List.filter is_append es = [] →
  untouched w (mk_world (self w) (trace w ++ es)).
Proof.
  intros E. split; [reflexivity|]. cbn. now rewrite List.filter_app, E, app_nil_r.
Qed.

Lemma read_only_call_query i rc rcm : read_only (GP := GP) (call_query i rc rcm).
Proof. intros w. apply (untouched_events w [_]). reflexivity. Qed.

Lemma read_only_warnings_warn msg :
  read_only (warnings_warn (F := F) (GP := GP) msg).
Proof. intros w. apply (untouched_events w [_]). reflexivity. Qed.

Lemma read_only_numpy_warn emitted :
  read_only (numpy_warn (F := F) (GP := GP) emitted).
Proof.
  intros w. apply untouched_events.
  induction (recorded emitted) as [|x l IH]; [reflexivity | exact IH].
Qed.

Lemma read_only_query_slices state rcm : read_only (GP := GP) (query_slices state rcm).
Proof.
  unfold query_slices.
  apply read_only_bind; [apply read_only_get_self | intros s].
  apply read_only_bind; [apply read_only_call_query | intros q].
  apply read_only_bind.
  { destruct rcm; destruct q as [|m [|c [|cm [|? ?]]]];
      first [apply read_only_ret | apply read_only_raise]. }
  intros [[m c] cm].
  apply read_only_bind; [apply read_only_lift | intros m'].
  apply read_only_bind; [apply read_only_lift | intros c'].
  apply read_only_bind; [| intros cm'; apply read_only_ret].
  destruct cm as [cm|]; [|apply read_only_ret].
  apply read_only_bind; [apply read_only_lift | intros ?; apply read_only_ret].
Qed.

Lemma read_only_level_values ms cs lams : read_only (GP := GP) (level_values ms cs lams).
Proof.
  unfold level_values.
  apply read_only_bind; [apply read_only_lift | intros [ps emitted]].
  apply read_only_bind.
  { destruct (decide (0 < length (recorded emitted))); [|apply read_only_ret].
    apply read_only_bind; [apply read_only_lift | intros [fb ?]].
    apply read_only_ret. }
  intros [[msg|] lv].
  - apply read_only_bind; [apply read_only_warnings_warn | intros ?].
    apply read_only_ret.
  - apply read_only_bind; [apply read_only_ret | intros ?].
    apply read_only_ret.
Qed.

Lemma read_only_level_set state lam gam rp rc rm rcm :
  read_only (GP := GP) (level_set state lam gam rp rc rm rcm).
Proof.
  unfold level_set.
  apply read_only_bind; [apply read_only_query_slices | intros [[ms cs] cm]].
  apply read_only_bind; [apply read_only_level_values | intros lvs].
  apply read_only_bind; [apply read_only_lift | intros [ls lv]].
  apply read_only_ret.
Qed.

Lemma read_only_measure state lam gopt : read_only (GP := GP) (measure state lam gopt).
Proof.
  unfold measure.
  apply read_only_bind; [apply read_only_get_self | intros s].
  apply read_only_bind; [apply read_only_level_set | intros r].
  destruct r as [[a| | | |]|]; try apply read_only_raise.
  apply read_only_bind; [apply read_only_lift | intros a'].
  apply read_only_bind; [apply read_only_lift | intros [m emitted]].
  apply read_only_bind; [apply read_only_numpy_warn | intros ?].
  apply read_only_ret.
Qed.

Lemma read_only_is_in_level_set state action lam gam :
  read_only (GP := GP) (is_in_level_set state action lam gam).
Proof.
  unfold is_in_level_set.
  apply read_only_bind; [apply read_only_call_query | intros q].
  apply read_only_bind.
  { destruct q as [|m [|c [|? ?]]];
      first [apply read_only_ret | apply read_only_raise]. }
  intros [m c].
  apply read_only_bind; [apply read_only_lift | intros [lv emitted]].
  apply read_only_bind; [apply read_only_numpy_warn | intros ?].
  apply read_only_ret.
Qed.

(** X3. [level_set], [measure] and [is_in_level_set] only read: whatever
    they are called with and however they end, with a value or with an
    exception, the object is as before (same environment, same regressor,
    same [gamma_measure]) and no row was given to the regressor. *)
Theorem queries_never_write (state : state_arg F) (s a : ndarray F)
    (lam gam : threshold F) (l g : F) (gopt : option F)
    (rp rc rm rcm : bool) w :
  let after_level_set := (level_set state lam gam rp rc rm rcm w).2 in
  let after_measure := (measure state l gopt w).2 in
  let after_is_in := (is_in_level_set s a l g w).2 in
  (self after_level_set = self w
   ∧ List.filter is_append (trace after_level_set)
     = List.filter is_append (trace w))
  ∧ (self after_measure = self w
     ∧ List.filter is_append (trace after_measure)
       = List.filter is_append (trace w))
  ∧ (self after_is_in = self w
     ∧ List.filter is_append (trace after_is_in)
       = List.filter is_append (trace w)).
Proof.
  cbv zeta. split; [|split].
  - apply read_only_level_set.
  - apply read_only_measure.
  - apply read_only_is_in_level_set.
Qed.

(** X4. [update] writes one row when it returns, and none when the answer
    of the regressor is refused.  When it returns, the rows given to the
    regressor are the earlier ones and one more, with the value returned as
    its target, and the regressor is the earlier one with that row
    appended.  When the transition did not fail, no override is given and
    the answer of the regressor to the query of [measure] cannot be
    unpacked or reshaped, [update] raises that exception, no row was given
    and the object is as before. *)
Theorem update_writes_once_or_not_at_all
    (state action new_state : ndarray F) (reward : F) (failed done : bool)
    (measure_ : option (ndarray F)) w :
  let sa := stateaction_getitem (env (self w)) state action in
  let out := update state action new_state reward failed done measure_ w in
  (∀ v, out.1 = inr v →
     List.filter is_append (trace out.2) =
       List.filter is_append (trace w)
       ++ [AppendData sa v [negb failed] [negb failed] [failed]]
     ∧ gp (self out.2) =
         append_data (gp (self w)) sa v [negb failed] [negb failed] [failed]
     ∧ env (self out.2) = env (self w)
     ∧ gamma_measure (self out.2) = gamma_measure (self w))
  ∧ (∀ e, failed = false → measure_ = None →
       (query_slices (StateArray new_state) false w).1 = inl e →
       out.1 = inl e
       ∧ self out.2 = self w
       ∧ List.filter is_append (trace out.2) = List.filter is_append (trace w)).
Proof.
  intros sa out. subst out. split.
  - intros v. unfold update, bind, get_self, call_append_data, ret, with_row.
    cbn -[measure].
    destruct failed, measure_ as [m|]; cbn -[measure];
      try (intros [= <-]; rewrite List.filter_app; cbn; repeat split;
           reflexivity).
    pose proof (read_only_measure (StateArray new_state) f0
                  (Some (gamma_measure (self w))) w) as [Hs Ht].
    destruct (measure _ _ _ w) as [[e|v'] w1]; cbn in *; [discriminate|].
    intros [= <-]. rewrite List.filter_app, Ht, Hs. cbn.
    repeat split; reflexivity.
  - intros e -> -> Hq.
    pose proof (read_only_measure (StateArray new_state) f0
                  (Some (gamma_measure (self w))) w) as [Hs Ht].
    assert ((measure (StateArray new_state) f0
               (Some (gamma_measure (self w))) w).1 = inl e) as Hm.
    { unfold measure, bind, get_self. cbn -[level_set].
      unfold level_set, bind.
      destruct (query_slices (StateArray new_state) false w) as [[e'|r] w1];
        cbn in Hq; [|discriminate]. injection Hq as ->. reflexivity. }
    unfold update, bind, get_self. cbn -[measure].
    destruct (measure _ _ _ w) as [[e'|v'] w1]; cbn in *; [|discriminate].
    injection Hm as ->. repeat split; assumption.
Qed.
End ReadOnly.

(** ** More on [level_set] and [measure] *)

Section LevelSetEdges.
Context {F GP : Type} `{Float64 F} `{Regressor F GP}.
Implicit Types (w : world F GP) (ms cs : ndarray F) (lams gams : list F).

(** X5. [level_set] issues at most one warning, and issues it exactly when
    numpy raised a warning while the probabilities were computed.  When
    none was raised the trace gets the query and nothing else, and the
    level sets are taken from the plain probabilities, the distribution
    function at [(mean - lambda) / sqrt(covariance)]; this is so in
    particular for an empty list of thresholds, whatever the covariance. *)
Theorem level_set_warns_only_after_numpy
    state lam gam rp rc rm rcm w ms cs cm :
  (query_slices state rcm w).1 = inr (ms, cs, cm) →
  shape ms = shape cs →
  let lams := threshold_list lam in
  let raised := flat_map (probability_flags ms cs) lams in
  let out := level_set state lam gam rp rc rm rcm w in
  length (List.filter is_warning (trace out.2)) =
    length (List.filter is_warning (trace w))
    + (match raised with [] => 0 | _ :: _ => 1 end)
  ∧ (raised = [] →
     trace out.2 = trace w ++ [Query (level_set_index state) true rcm]
     ∧ ∃ r, out.1 = inr r
         ∧ level_sets_of r =
             zip_with np_gt_scalar (gaussian_probability ms cs <$> lams)
               (threshold_list gam)).
Proof.
  intros Hq Hs lams raised out. subst out.
  pose proof (level_set_run state lam gam rp rc rm rcm w ms cs cm Hq Hs) as R.
  cbv zeta in R. fold lams in R. fold raised in R.
  pose proof (level_sets_of_returned ms cs lams (threshold_list gam)
                (rp || rc || rm || rcm)
                (λ lv, selected rp rc rm rcm lv cs ms cm)) as L.
  destruct (returned_sets ms cs lams (threshold_list gam)) as [ls lv].
  rewrite R. cbn [fst snd trace]. split.
  - rewrite !List.filter_app, !length_app. cbn.
    destruct raised; cbn; lia.
  - intros E. split; [now rewrite E, app_nil_r|].
    eexists. split; [reflexivity|]. rewrite L. unfold probabilities.
    fold raised. now rewrite E.
Qed.

(** X6. [level_set] pairs the thresholds up like [zip]: with lists of
    different lengths nothing is raised and there are as many level sets as
    the shorter list has thresholds.  When this leaves one pair, the level
    set and the probability come back as bare arrays, those of the first
    lambda, however many lambdas were given. *)
Theorem level_set_pairs_thresholds
    state lam gam rc rm rcm w ms cs cm :
  (query_slices state rcm w).1 = inr (ms, cs, cm) →
  shape ms = shape cs →
  let lams := threshold_list lam in
  let gams := threshold_list gam in
  ∃ r, (level_set state lam gam true rc rm rcm w).1 = inr r
    ∧ length (level_sets_of r) = length lams `min` length gams
    ∧ (length lams `min` length gams = 1 →
       ∃ p0 g0,
         head (probabilities ms cs lams) = Some p0
         ∧ head gams = Some g0
         ∧ components r =
             BoolArray (np_gt_scalar p0 g0) :: FloatArray p0
             :: selected false rc rm rcm NoneObj cs ms cm).
Proof.
  intros Hq Hs lams gams.
  pose proof (level_set_run state lam gam true rc rm rcm w ms cs cm Hq Hs) as R.
  cbv zeta in R. fold lams gams in R.
  pose proof (level_sets_of_returned ms cs lams gams true
                (λ lv, selected true rc rm rcm lv cs ms cm)) as L.
  pose proof (length_probabilities ms cs lams) as Hlp.
  unfold returned_sets in R, L.
  destruct (zip_with np_gt_scalar (probabilities ms cs lams) gams)
    as [|a [|a' l]] eqn:Ez, (probabilities ms cs lams) as [|p ps] eqn:Ep;
    cbn [orb] in R; rewrite R; cbn [fst]; eexists; (split; [reflexivity|]).
  all: pose proof (f_equal length Ez) as Hz; rewrite length_zip_with in Hz;
    cbn [length] in Hz, Hlp.
  all: split; [rewrite L; cbn [length]; lia|].
  all: intros Hone; try (exfalso; lia).
  destruct gams as [|g0 gs]; [discriminate Ez|].
  cbn in Ez. injection Ez as <- _.
  exists p, g0. repeat split; reflexivity.
Qed.

Lemma reshape_rows_inr {A} (tail : list nat) (a a' : ndarray A) :
  reshape_rows tail a = inr a' →
  prod tail ≠ 0
  ∧ size a mod prod tail = 0
  ∧ a' = mk_ndarray (size a / prod tail :: tail) (data a).
Proof.
  unfold reshape_rows.
  destruct (Nat.eqb_spec (prod tail) 0) as [|Hp]; [discriminate|].
  destruct (Nat.eqb_spec (size a mod prod tail) 0) as [Hm|]; [|discriminate].
  cbn. intros [= <-]. auto.
Qed.

Lemma query_slices_reshaped state rcm w ms cs cm :
  (query_slices state rcm w).1 = inr (ms, cs, cm) →
  let tail := action_shape (env (self w)) in
  prod tail ≠ 0
  ∧ (size ms mod prod tail = 0 ∧ shape ms = size ms / prod tail :: tail)
  ∧ (size cs mod prod tail = 0 ∧ shape cs = size cs / prod tail :: tail).
Proof.
  unfold query_slices, bind, get_self, call_query, lift, ret, raise. cbn.
  assert (∀ (m c m' c' : ndarray F),
            reshape_rows (action_shape (env (self w))) m = inr m' →
            reshape_rows (action_shape (env (self w))) c = inr c' →
            prod (action_shape (env (self w))) ≠ 0
            ∧ (size m' mod prod (action_shape (env (self w))) = 0
               ∧ shape m' = size m' / prod (action_shape (env (self w)))
                            :: action_shape (env (self w)))
            ∧ (size c' mod prod (action_shape (env (self w))) = 0
               ∧ shape c' = size c' / prod (action_shape (env (self w)))
                            :: action_shape (env (self w)))) as Hin.
  { intros m c m' c' Hm Hc.
    apply reshape_rows_inr in Hm as (Hp & Hm1 & ->).
    apply reshape_rows_inr in Hc as (_ & Hc1 & ->). cbn. auto. }
  destruct rcm;
    destruct (query _ _ _ _ _) as [|m [|c [|cm' [|? ?]]]]; cbn;
    try discriminate.
  - destruct (reshape_rows _ m) as [|m'] eqn:Em; cbn; [discriminate|].
    destruct (reshape_rows _ c) as [|c'] eqn:Ec; cbn; [discriminate|].
    destruct (reshape_rows _ cm'); cbn; [discriminate|].
    intros [= <- <- <-]. eapply Hin; eauto.
  - destruct (reshape_rows _ m) as [|m'] eqn:Em; cbn; [discriminate|].
    destruct (reshape_rows _ c) as [|c'] eqn:Ec; cbn; [discriminate|].
    intros [= <- <- <-]. eapply Hin; eauto.
Qed.

Lemma bind_singleton {A B} (f : A → B) (l : list A) :
  (x ← l; [f x]) = f <$> l.
Proof. induction l as [|x l IH]; cbn; [reflexivity | now rewrite IH]. Qed.

Lemma bind_singleton_on {A B} (f : A → list B) (g : A → B) (l : list A) :
  (∀ x, x ∈ l → f x = [g x]) → l ≫= f = g <$> l.
Proof.
  induction l as [|x l IH]; intros Hfg; [reflexivity|]. cbn.
  rewrite (Hfg x) by apply list_elem_of_here. cbn. f_equal.
  apply IH. intros y Hy. apply Hfg. now apply list_elem_of_further.
Qed.

Lemma block_is_a_row (d : list bool) (p i : nat) :
  (i + 1) * p ≤ length d →
  (λ m, default false (d !! ((i * p + m) * 1 + 0))) <$> seq 0 p
  = take p (drop (i * p) d).
Proof.
  intros Hlen. apply list_eq. intros m.
  rewrite list_lookup_fmap.
  destruct (decide (m < p)) as [Hm|Hm].
  - rewrite lookup_seq_lt by exact Hm. cbn.
    rewrite lookup_take_lt by exact Hm. rewrite lookup_drop.
    replace ((i * p + m) * 1 + 0) with (i * p + m) by lia.
    destruct (d !! (i * p + m)) as [b|] eqn:E; [reflexivity|].
    apply lookup_ge_None in E. lia.
  - rewrite lookup_seq_ge by lia. cbn.
    symmetry. apply lookup_ge_None. rewrite length_take. lia.
Qed.

Lemma mean_over_rows (a : ndarray bool) (n : nat) (tail : list nat) :
  shape a = n :: tail →
  size a = n * prod tail →
  np_mean_axes (length tail) a =
    inr (mk_ndarray [n] ((λ row, fmean (data row)) <$> subarrays a),
         flat_map mean_flags (data <$> subarrays a)).
Proof.
  intros Hsh Hsz. unfold np_mean_axes, subarrays. rewrite Hsh.
  rewrite decide_True by lia.
  rewrite firstn_all, drop_all. cbn [prod foldr seq].
  assert ((seq 0 n ≫= λ i, [0] ≫= λ r, [(λ m, default false
               (data a !! ((i * prod tail + m) * 1 + r))) <$> seq 0 (prod tail)])
          = (λ i, take (prod tail) (drop (i * prod tail) (data a))) <$> seq 0 n)
    as ->.
  { apply bind_singleton_on. intros i Hi.
    apply list_elem_of_lookup in Hi as [k Hk].
    apply lookup_seq in Hk as [-> Hk]. cbn. f_equal.
    apply block_is_a_row. unfold size in Hsz. nia. }
  rewrite <- !list_fmap_compose. reflexivity.
Qed.

(** X7. [measure] is, state by state, the mean of the level set over the
    actions.  When the regressor answers in shape and the action space
    has as many index dimensions as its shape has entries, [measure]
    returns a vector with one entry per state: the mean of the row of that
    state in the level set which [level_set] returns for the same
    thresholds; a [gamma_threshold] that is not given stands for
    [gamma_measure]. *)
Theorem measure_is_the_mean_over_actions
    state (lam : F) (gopt : option F) w ms cs cm :
  (query_slices state false w).1 = inr (ms, cs, cm) →
  shape ms = shape cs →
  action_index_dim (env (self w)) = length (action_shape (env (self w))) →
  let gamma := default (gamma_measure (self w)) gopt in
  ∃ a : ndarray bool,
    (level_set state (Single lam) (Single gamma) false false false false w).1
      = inr (Bare (BoolArray a))
    ∧ (measure state lam gopt w).1 =
        inr (mk_ndarray [length (subarrays a)]
               ((λ row, fmean (data row)) <$> subarrays a))
    ∧ length (subarrays a) = size ms / prod (action_shape (env (self w)))
    ∧ Forall (λ row, shape row = action_shape (env (self w))) (subarrays a).
Proof.
  intros Hq Hs Hk gamma.
  pose proof (query_slices_reshaped state false w ms cs cm Hq) as
    (Hp & (Hmm & Hms) & (Hcm & Hcs)). cbv zeta in *.
  set (tail := action_shape (env (self w))) in *.
  pose proof (level_set_run state (Single lam) (Single gamma)
                false false false false w ms cs cm Hq Hs) as R.
  cbv zeta in R. cbn [threshold_list orb] in R.
  assert (∃ p, probabilities ms cs [lam] = [p] ∧ shape p = shape ms
               ∧ size p = size ms) as (p & Ep & Hsp & Hzp).
  { assert (size cs = size ms) as Hsz.
    { rewrite Hms, Hcs in Hs. injection Hs as Hs.
      rewrite (Nat.div_mod (size ms) (prod tail) Hp).
      rewrite (Nat.div_mod (size cs) (prod tail) Hp). lia. }
    unfold probabilities.
    destruct (flat_map (probability_flags ms cs) [lam]); eexists;
      (split; [reflexivity|]); split; try reflexivity;
      unfold size, gaussian_probability, np_abs, np_map; cbn;
      rewrite length_zip_with, ?length_fmap; unfold size in Hsz; lia. }
  unfold returned_sets in R. rewrite Ep in R. cbn in R.
  set (a := np_gt_scalar p gamma) in *.
  assert (shape a = size ms / prod tail :: tail) as Hsa
    by (unfold a, np_gt_scalar, np_map; cbn; congruence).
  assert (size a = size ms) as Hza
    by (unfold a, np_gt_scalar, np_map, size in *; cbn;
        now rewrite length_fmap).
  assert (size ms = size ms / prod tail * prod tail) as Hdiv.
  { pose proof (Nat.div_mod (size ms) (prod tail) Hp). lia. }
  assert (length (subarrays a) = size ms / prod tail) as Hlen.
  { unfold subarrays. rewrite Hsa. now rewrite length_fmap, length_seq. }
  exists a. split; [now rewrite R|]. split; [|split; [exact Hlen|]].
  - assert (match gopt with
            | None => gamma_measure (self w)
            | Some g0 => g0
            end = gamma) as Hg by (destruct gopt; reflexivity).
    unfold measure, bind, get_self. cbn -[level_set np_mean_axes reshape_rows].
    rewrite Hg, R. cbn -[np_mean_axes reshape_rows].
    fold tail.
    assert (reshape_rows tail a = inr a) as ->.
    { unfold reshape_rows. rewrite Hza.
      destruct (Nat.eqb_spec (prod tail) 0) as [|_]; [contradiction|].
      rewrite Hmm. cbn [Nat.eqb negb orb]. rewrite <- Hsa.
      unfold a, np_gt_scalar, np_map. reflexivity. }
    cbn -[np_mean_axes]. rewrite Hk. fold tail.
    rewrite (mean_over_rows a (size ms / prod tail) tail Hsa)
      by (rewrite Hza; exact Hdiv).
    cbn. rewrite Hlen. reflexivity.
  - unfold subarrays. rewrite Hsa. apply Forall_fmap.
    apply Forall_forall. intros i _. reflexivity.
Qed.
End LevelSetEdges.

(** ** More on [MaternSafety.load] *)

Section LoadEdges.
Context {F GP : Type} `{MaternGP F GP}.
Variables GP_SAVE_NAME SAVE_NAME : string.
Variable joinpath : string → string → string.
Variable json_loads : string → exn + gmap string F.

(** X8. Save, then load.  When the file of the saved [state_dict] holds a
    text that [json.loads] reads back as the [state_dict] of a model,
    [load] without a [gamma_measure] returns a model with the same
    [gamma_measure], hence with the same [state_dict], whatever seeds and
    environment it is given. *)
Theorem load_restores_state_dict
    (saved : SafetyMeasure F GP) (files : gmap string string)
    (load_folder text : string) (env_ : Env F)
    (x_seed y_seed : option (ndarray F)) :
  files !! joinpath load_folder SAVE_NAME = Some text →
  json_loads text = inr (state_dict saved) →
  ∃ model,
    load GP_SAVE_NAME SAVE_NAME joinpath json_loads
      files load_folder env_ None x_seed y_seed = inr model
    ∧ gamma_measure model = gamma_measure saved
    ∧ state_dict model = state_dict saved.
Proof.
  intros Hf Hj. unfold load, read_gamma_measure. rewrite Hf, Hj.
  unfold state_dict at 1. rewrite lookup_singleton_eq.
  destruct x_seed; eexists; (split; [reflexivity|]); split; reflexivity.
Qed.

(** X9. What [load] does with the other failures, and with a
    [gamma_measure] that is given.  A given [gamma_measure] is used as it
    is: the call returns whatever the files hold, also when the file of
    the [state_dict] is absent.  Without one, only the absence of the file
    becomes a [ValueError]: an exception of [json.loads] leaves [load]
    unchanged, and a [state_dict] without the entry raises
    [KeyError('gamma_measure')]. *)
Theorem load_other_outcomes
    (files : gmap string string) (load_folder : string) (env_ : Env F)
    (x_seed y_seed : option (ndarray F)) :
  let run := load GP_SAVE_NAME SAVE_NAME joinpath json_loads
               files load_folder env_ in
  let loaded_gp :=
    MaternGP_load files (joinpath load_folder GP_SAVE_NAME) x_seed y_seed
      (match x_seed with None => true | Some _ => false end) in
  (∀ g, run (Some g) x_seed y_seed = inr (mk_SafetyMeasure env_ loaded_gp g))
  ∧ (∀ text e,
       files !! joinpath load_folder SAVE_NAME = Some text →
       json_loads text = inl e →
       (∀ p, e ≠ FileNotFoundError p) →
       run None x_seed y_seed = inl e)
  ∧ (∀ text state_dict_,
       files !! joinpath load_folder SAVE_NAME = Some text →
       json_loads text = inr state_dict_ →
       state_dict_ !! "gamma_measure" = None →
       run None x_seed y_seed = inl (KeyError "gamma_measure")).
Proof.
  intros run loaded_gp. subst run loaded_gp. unfold load, read_gamma_measure.
  split; [|split].
  - intros g. destruct x_seed; reflexivity.
  - intros text e -> -> He. destruct e; try (destruct x_seed; reflexivity).
    exfalso. eapply He. reflexivity.
  - intros text d -> -> ->. destruct x_seed; reflexivity.
Qed.
End LoadEdges.

(** ** Iterating over a product space, sampling from it *)

Section ProductIterationProperties.
Context {X I : Type}.
Variable space_iter : DiscreteSpace X I → list I.
Variable draw : nat → DiscreteSpace X I → I.
Implicit Types (sets : list (DiscreteSpace X I)) (t : list I).

Lemma length_itertools_product (ls : list (list I)) :
  length (ProductIteration.itertools_product ls) = prod (length <$> ls).
Proof.
  induction ls as [|l ls IH]; [reflexivity|].
  cbn [ProductIteration.itertools_product fmap list_fmap prod foldr].
  fold (prod (length <$> ls)). rewrite <- IH.
  generalize (ProductIteration.itertools_product ls). intros P.
  induction l as [|x l IHl]; [reflexivity|]. cbn.
  rewrite length_app, IHl, bind_singleton, length_fmap. reflexivity.
Qed.

Lemma elem_of_itertools_product (ls : list (list I)) t :
  t ∈ ProductIteration.itertools_product ls ↔ Forall2 (λ i l, i ∈ l) t ls.
Proof.
  revert t. induction ls as [|l ls IH]; intros t; cbn.
  - rewrite list_elem_of_singleton. split; [intros ->; constructor|].
    intros Ht. now inversion Ht.
  - rewrite list_elem_of_bind. split.
    + intros (x & Ht & Hx). apply list_elem_of_bind in Ht as (t' & Ht & Ht').
      apply list_elem_of_singleton in Ht as ->. constructor; [exact Hx|].
      now apply IH.
    + intros Ht. inversion Ht as [|x l' t' ls' Hx Hrest]; subst.
      exists x. split; [|exact Hx]. apply list_elem_of_bind.
      exists t'. split; [apply list_elem_of_singleton; reflexivity|].
      now apply IH.
Qed.

Lemma NoDup_itertools_product (ls : list (list I)) :
  Forall NoDup ls → NoDup (ProductIteration.itertools_product ls).
Proof.
  induction 1 as [|l ls Hl Hls IH]; cbn; [apply NoDup_singleton|].
  apply NoDup_bind; [| |exact Hl].
  - intros x1 x2 t Hx1 Hx2 H1 H2.
    apply list_elem_of_bind in H1 as (t1 & H1 & _).
    apply list_elem_of_bind in H2 as (t2 & H2 & _).
    apply list_elem_of_singleton in H1, H2. congruence.
  - intros x Hx. rewrite bind_singleton. apply NoDup_fmap; [|exact IH].
    intros t1 t2 E. now injection E.
Qed.

Lemma get_index_iterator_members sets t :
  t ∈ ProductIteration.get_index_iterator space_iter sets
  ↔ Forall2 (λ i s, i ∈ space_iter s) t sets.
Proof.
  unfold ProductIteration.get_index_iterator.
  rewrite elem_of_itertools_product. apply Forall2_fmap_r.
Qed.

(** X10. The iterator of a product space enumerates the index tuples.  It
    yields as many tuples as the product of the numbers of indices of the
    sub-spaces; a tuple is yielded exactly when it has one index per
    sub-space, each among those its sub-space yields; and no tuple comes
    twice when no sub-space yields an index twice. *)
Theorem get_index_iterator_enumerates sets :
  let tuples := ProductIteration.get_index_iterator space_iter sets in
  length tuples = prod ((λ s, length (space_iter s)) <$> sets)
  ∧ (∀ t, t ∈ tuples ↔ Forall2 (λ i s, i ∈ space_iter s) t sets)
  ∧ (Forall (λ s, NoDup (space_iter s)) sets → NoDup tuples).
Proof.
  cbv zeta. unfold ProductIteration.get_index_iterator. split; [|split].
  - rewrite length_itertools_product, <- list_fmap_compose. reflexivity.
  - apply get_index_iterator_members.
  - intros Hnd. apply NoDup_itertools_product. now apply Forall_fmap.
Qed.

Lemma getitem_same_length sets (index_ : list I) :
  length index_ = length sets →
  DiscreteProductSpace.getitem sets index_
  = inr (zip_with (λ i s, space_getitem s i) index_ sets).
Proof.
  intros Hlen. unfold DiscreteProductSpace.getitem.
  rewrite decide_False by (intros Hne; apply Hne; exact Hlen).
  f_equal. revert sets Hlen.
  induction index_ as [|i l IH]; intros [|s sets] Hlen; cbn in *;
    try reflexivity; try discriminate.
  f_equal. apply IH. lia.
Qed.

(** X11. The indices a product space produces itself are indices it
    accepts.  [__getitem__] raises for no tuple of its iterator and returns
    one item per sub-space; and [sample], which indexes the space by
    [sample_idx()], never raises: it returns, for each sub-space in order,
    the item at the index drawn for it. *)
Theorem own_indices_fit_getitem sets :
  (∀ t, t ∈ ProductIteration.get_index_iterator space_iter sets →
     ∃ xs, DiscreteProductSpace.getitem sets t = inr xs
           ∧ length xs = length sets
           ∧ ∀ k i s, t !! k = Some i → sets !! k = Some s →
               xs !! k = Some (space_getitem s i))
  ∧ ProductIteration.sample draw sets
    = inr (imap (λ k s, space_getitem s (draw k s)) sets).
Proof.
  split.
  - intros t Ht.
    apply get_index_iterator_members in Ht.
    pose proof (Forall2_length _ _ _ Ht) as Hlen.
    rewrite (getitem_same_length sets t Hlen). eexists.
    split; [reflexivity|]. split.
    + rewrite length_zip_with. lia.
    + intros k i s Hi Hs. rewrite lookup_zip_with, Hi. cbn. now rewrite Hs.
  - unfold ProductIteration.sample, ProductIteration.sample_idx.
    rewrite getitem_same_length by apply length_imap. f_equal.
    apply list_eq. intros k.
    rewrite lookup_zip_with, !list_lookup_imap.
    destruct (sets !! k); reflexivity.
Qed.

Lemma indexof_of_items sets (index_ : list I) :
  length index_ = length sets →
  (∀ k i s, index_ !! k = Some i → sets !! k = Some s →
     space_indexof s (space_getitem s i) = i) →
  DiscreteProductSpace.indexof sets
    (zip_with (λ i s, space_getitem s i) index_ sets) = inr index_.
Proof.
  intros Hlen Hback.
  assert (length (zip_with (λ i s, space_getitem s i) index_ sets)
          = length sets) as Hl by (rewrite length_zip_with; lia).
  unfold DiscreteProductSpace.indexof.
  rewrite decide_False by (intros Hne; apply Hne; exact Hl).
  f_equal. apply list_eq. intros k. rewrite list_lookup_fmap.
  destruct (index_ !! k) as [i|] eqn:Hi.
  - destruct (lookup_lt_is_Some_2 sets k) as [s Hs].
    { apply lookup_lt_Some in Hi. lia. }
    rewrite (proj2 (lookup_zip_Some _ sets k (space_getitem s i) s)).
    + cbn. f_equal. eapply Hback; eauto.
    + split; [|exact Hs]. rewrite lookup_zip_with, Hi. cbn. now rewrite Hs.
  - apply lookup_ge_None in Hi.
    rewrite (proj2 (lookup_ge_None _ k)); [reflexivity|].
    rewrite length_zip, length_zip_with. lia.
Qed.

Lemma contains_of_items sets (index_ : list I) :
  length index_ = length sets →
  (∀ k i s, index_ !! k = Some i → sets !! k = Some s →
     space_contains s (space_getitem s i) = true) →
  DiscreteProductSpace.contains sets
    (zip_with (λ i s, space_getitem s i) index_ sets) = inr true.
Proof.
  intros Hlen Hin.
  assert (length (zip_with (λ i s, space_getitem s i) index_ sets)
          = length sets) as Hl by (rewrite length_zip_with; lia).
  unfold DiscreteProductSpace.contains.
  rewrite decide_False by (intros Hne; apply Hne; exact Hl).
  f_equal. apply forallb_forall. intros [x s] Hxs.
  apply list_elem_of_In, list_elem_of_lookup in Hxs as [k Hk].
  apply lookup_zip_Some in Hk as [Hx Hs]. cbn.
  rewrite lookup_zip_with in Hx.
  destruct (index_ !! k) as [i|] eqn:Hi; [|discriminate].
  cbn in Hx. rewrite Hs in Hx. cbn in Hx. injection Hx as <-.
  eapply Hin; eauto.
Qed.

(** X12. Indexing a product space and asking for the index back.  When the
    index, a tuple or a list, has one coordinate per sub-space and every
    sub-space gives back the index of the item it holds at that coordinate,
    [self[index]] is a list and [indexof] of it is the tuple of the
    coordinates of the index: it equals the index exactly when the index is
    a tuple, never when it is a list.  When every sub-space contains the
    item it holds there, the product contains [self[index]]. *)
Theorem indexof_of_getitem sets (index_ : pyseq I) :
  length (seq_items index_) = length sets →
  (∀ k i s, seq_items index_ !! k = Some i → sets !! k = Some s →
     space_indexof s (space_getitem s i) = i) →
  ∃ xs, ProductObjects.getitem sets index_ = inr (PyList xs)
    ∧ ProductObjects.indexof sets (PyList xs)
      = inr (PyTuple (seq_items index_))
    ∧ (ProductObjects.indexof sets (PyList xs) = inr index_
       ↔ ∃ items, index_ = PyTuple items)
    ∧ ((∀ k i s, seq_items index_ !! k = Some i → sets !! k = Some s →
          space_contains s (space_getitem s i) = true) →
       ProductObjects.contains sets (PyList xs) = inr true).
Proof.
  intros Hlen Hback.
  unfold ProductObjects.getitem, ProductObjects.indexof,
    ProductObjects.contains.
  rewrite (getitem_same_length sets (seq_items index_) Hlen).
  eexists. split; [reflexivity|]. cbn [seq_items].
  rewrite (indexof_of_items sets (seq_items index_) Hlen Hback).
  split; [reflexivity|]. split.
  - split.
    + intros [= <-]. eauto.
    + intros [items ->]. reflexivity.
  - intros Hin. now apply contains_of_items.
Qed.
End ProductIterationProperties.

(** ** The safety policies *)

Section PolicyProperties.
Context {F A : Type} `{Float64 F}.
Variables fadd fmul : F → F → F.
Variable noise_scale : F.
Variable inf : F.
Variable randn : nat → F.
Variables np_argmax np_argmin : list F → nat.
Variable action_getitem : list nat → A.

Local Abbreviation add_noise := (Policies.add_noise fadd fmul noise_scale randn).
Local Abbreviation active_sampling :=
  (Policies.active_sampling_get_action fadd fmul noise_scale randn np_argmax
     action_getitem).
Local Abbreviation maximization :=
  (Policies.maximization_get_action fadd fmul noise_scale randn np_argmax
     action_getitem).
Local Abbreviation projection :=
  (Policies.projection_get_action inf np_argmin).

Lemma unravel_in_bounds (dims : list nat) i :
  i < prod dims → Forall2 (λ j d, j < d) (Policies.unravel dims i) dims.
Proof.
  revert i. induction dims as [|d dims IH]; intros i Hi; cbn; [constructor|].
  change (i < d * prod dims) in Hi.
  assert (prod dims ≠ 0) as Hp by nia. constructor.
  - apply Nat.Div0.div_lt_upper_bound. lia.
  - apply IH. now apply Nat.mod_upper_bound.
Qed.

Lemma ravel_unravel (dims : list nat) i :
  i < prod dims → ravel dims (Policies.unravel dims i) = i.
Proof.
  revert i. induction dims as [|d dims IH]; intros i Hi; [cbn in *; lia|].
  change (i < d * prod dims) in Hi. cbn [ravel Policies.unravel].
  assert (prod dims ≠ 0) as Hp by nia.
  rewrite IH by now apply Nat.mod_upper_bound.
  pose proof (Nat.div_mod i (prod dims) Hp). lia.
Qed.

Lemma true_positions_spec (l : list bool) i :
  i ∈ Policies.true_positions l ↔ l !! i = Some true.
Proof.
  unfold Policies.true_positions. rewrite list_elem_of_fmap. split.
  - intros ([k b] & -> & Hin). apply list_elem_of_In, filter_In in Hin as [Hin Hb].
    cbn in Hb. subst b. apply list_elem_of_In, list_elem_of_lookup in Hin as [j Hj].
    rewrite list_lookup_imap in Hj.
    destruct (l !! j) as [b|] eqn:E; [|discriminate].
    cbn in Hj. injection Hj as <- <-. exact E.
  - intros Hi. exists (i, true). split; [reflexivity|].
    apply list_elem_of_In, filter_In. split; [|reflexivity].
    apply list_elem_of_In, list_elem_of_lookup. exists i.
    now rewrite list_lookup_imap, Hi.
Qed.

Lemma np_argwhere_spec (a : ndarray bool) row :
  row ∈ Policies.np_argwhere a ↔
  ∃ i, data a !! i = Some true ∧ row = Policies.unravel (shape a) i.
Proof.
  unfold Policies.np_argwhere. rewrite list_elem_of_fmap. split.
  - intros (i & -> & Hi). exists i. split; [|reflexivity].
    now apply true_positions_spec.
  - intros (i & Hi & ->). exists i. split; [reflexivity|].
    now apply true_positions_spec.
Qed.

Lemma existsb_true_lookup (l : list bool) :
  existsb (λ b : bool, b) l = true ↔ ∃ i, l !! i = Some true.
Proof.
  rewrite existsb_exists. split.
  - intros (b & Hin & ->). now apply list_elem_of_In, list_elem_of_lookup in Hin.
  - intros [i Hi]. exists true. split; [|reflexivity].
    apply list_elem_of_In, list_elem_of_lookup. eauto.
Qed.

(** X13. [SafetyMaximization.get_action] stays on the action grid.  For
    a probability array with one entry per point of the action space, the
    action returned is the one at the multi-index of the entry that
    [np.argmax] picks in the perturbed array, every coordinate of this
    index is below the size of its axis, and the caller's array holds the
    perturbed values afterwards. *)
Theorem maximization_stays_on_the_grid
    (action_space_shape : list nat) (cautious_probability : ndarray F) :
  size cautious_probability = prod action_space_shape →
  np_argmax (data (add_noise cautious_probability))
    < size cautious_probability →
  let out := maximization action_space_shape cautious_probability in
  let picked :=
    Policies.unravel action_space_shape
      (np_argmax (data (add_noise cautious_probability))) in
  out.1 = inr (action_getitem picked)
  ∧ Forall2 (λ j d, j < d) picked action_space_shape
  ∧ ravel action_space_shape picked
    = np_argmax (data (add_noise cautious_probability))
  ∧ out.2 = add_noise cautious_probability.
Proof.
  intros Hsize Harg out picked. subst out picked.
  unfold Policies.maximization_get_action, Policies.np_unravel_index.
  assert (length (data (add_noise cautious_probability))
          = size cautious_probability) as Hl by apply length_imap.
  destruct (data (add_noise cautious_probability)) as [|v vs] eqn:Ed.
  { cbn in Hl. lia. }
  rewrite decide_True by lia. cbn [fst snd]. split; [reflexivity|].
  split; [apply unravel_in_bounds; lia|].
  split; [apply ravel_unravel; lia | reflexivity].
Qed.

(** X14. [SafetyActiveSampling.get_action] only returns cautious actions.
    It returns [None] exactly when no entry of [is_cautious] holds; and
    an action it returns sits at the multi-index of an entry of
    [is_cautious] that holds. *)
Theorem active_sampling_only_cautious
    (safety_covariance : ndarray F) (is_cautious : ndarray bool) :
  let out := active_sampling safety_covariance is_cautious in
  (out = inr None ↔ ∀ i, data is_cautious !! i ≠ Some true)
  ∧ ∀ a, out = inr (Some a) →
      ∃ i, data is_cautious !! i = Some true
           ∧ a = action_getitem (Policies.unravel (shape is_cautious) i)
           ∧ (size is_cautious = prod (shape is_cautious) →
              data is_cautious
                !! ravel (shape is_cautious)
                     (Policies.unravel (shape is_cautious) i)
              = Some true).
Proof.
  intros out. subst out. unfold Policies.active_sampling_get_action.
  destruct (existsb (λ b : bool, b) (data is_cautious)) eqn:Eany; cbn [negb].
  - apply existsb_true_lookup in Eany as [i0 Hi0].
    destruct (Policies.take_along_first_axis _ _) as [e|[|v vs]].
    + split; [split; [discriminate | intros Hn; exfalso; eapply Hn; eauto]|].
      discriminate.
    + split; [split; [discriminate | intros Hn; exfalso; eapply Hn; eauto]|].
      discriminate.
    + destruct (Policies.np_argwhere is_cautious !! np_argmax (v :: vs))
        as [row|] eqn:Erow.
      * split; [split; [discriminate | intros Hn; exfalso; eapply Hn; eauto]|].
        intros a [= <-].
        apply list_elem_of_lookup_2, np_argwhere_spec in Erow as (i & Hi & ->).
        exists i. split; [exact Hi|]. split; [reflexivity|].
        intros Hsz. rewrite ravel_unravel; [exact Hi|].
        apply lookup_lt_Some in Hi. unfold size in Hsz. lia.
      * split; [split; [discriminate | intros Hn; exfalso; eapply Hn; eauto]|].
        discriminate.
  - split; [|discriminate]. split; [|reflexivity].
    intros _ i Hi.
    assert (existsb (λ b : bool, b) (data is_cautious) = true) as Ht
      by (apply existsb_true_lookup; eauto).
    congruence.
Qed.

Lemma take_along_first_axis_vector (a : ndarray F) (m : nat)
    (positions : list nat) :
  shape a = [m] → size a = m →
  Forall (λ j, j < m) positions →
  ∃ vs, Policies.take_along_first_axis a ((λ j, [j]) <$> positions) = inr vs
        ∧ length vs = length positions.
Proof.
  intros Hsh Hsz Hpos. unfold Policies.take_along_first_axis. rewrite Hsh.
  induction Hpos as [|j positions Hj Hpos IH]; cbn.
  - exists []. split; reflexivity.
  - destruct IH as (vs & -> & Hl).
    unfold subarrays. rewrite Hsh. rewrite list_lookup_fmap.
    rewrite lookup_seq_lt by exact Hj. cbn.
    eexists. split; [reflexivity|].
    rewrite length_app, length_take, length_drop. unfold size in Hsz. lia.
Qed.

(** X15. In an action space of one dimension [SafetyActiveSampling.get_action]
    finds an action whenever there is a cautious one.  For a covariance and
    an [is_cautious] that are vectors of one length, with an entry of
    [is_cautious] that holds, the call returns an action, at a position
    where [is_cautious] holds; [np.argmax] is supposed to answer with a
    position of the array it is given. *)
Theorem active_sampling_finds_an_action
    (safety_covariance : ndarray F) (is_cautious : ndarray bool) (m k : nat) :
  (∀ l, l ≠ [] → np_argmax l < length l) →
  shape safety_covariance = [m] → size safety_covariance = m →
  shape is_cautious = [m] → size is_cautious = m →
  data is_cautious !! k = Some true →
  ∃ i, active_sampling safety_covariance is_cautious
         = inr (Some (action_getitem [i]))
       ∧ data is_cautious !! i = Some true.
Proof.
  intros Harg Hcs Hcz His Hiz Hk.
  unfold Policies.active_sampling_get_action.
  rewrite (proj2 (existsb_true_lookup _)) by eauto. cbn [negb].
  assert (Policies.np_argwhere is_cautious
          = (λ j, [j]) <$> Policies.true_positions (data is_cautious)) as Hw.
  { unfold Policies.np_argwhere. rewrite His. apply list_fmap_ext.
    intros ? j _. cbn [Policies.unravel]. change (prod []) with 1.
    now rewrite Nat.div_1_r. }
  assert (Forall (λ j, j < m) (Policies.true_positions (data is_cautious)))
    as Hpos.
  { apply Forall_forall. intros j Hj. apply true_positions_spec in Hj.
    apply lookup_lt_Some in Hj. unfold size in Hiz. lia. }
  destruct (take_along_first_axis_vector (add_noise safety_covariance) m
              (Policies.true_positions (data is_cautious)))
    as (vs & Evs & Hl); [exact Hcs | | exact Hpos |].
  { unfold size. cbn. now rewrite length_imap. }
  rewrite Hw, Evs.
  assert (k ∈ Policies.true_positions (data is_cautious)) as Hkin
    by now apply true_positions_spec.
  destruct vs as [|v vs].
  { destruct (Policies.true_positions (data is_cautious));
      [inversion Hkin | discriminate]. }
  specialize (Harg (v :: vs) ltac:(discriminate)).
  rewrite list_lookup_fmap.
  destruct (Policies.true_positions (data is_cautious) !! np_argmax (v :: vs))
    as [i|] eqn:Ei.
  - exists i. split; [reflexivity|].
    apply true_positions_spec. eapply list_elem_of_lookup_2. exact Ei.
  - apply lookup_ge_None in Ei. lia.
Qed.

(** X16. [SafeProjectionPolicy.get_action] returns an action that
    satisfies the constraints.  With one constraint per action, a feasible
    action at a distance below [np.inf], and [np.argmin] answering with the
    position of an entry that no entry is below, the action returned is one
    of the actions of the space, and its constraint holds. *)
Theorem projection_returns_a_feasible_action
    (actions : list A) (norm_to : A → F) (constraints : ndarray bool)
    (j : nat) (feasible : A) :
  shape (np_squeeze constraints) = [length actions] →
  length (data constraints) = length actions →
  (let masked :=
     zip_with (λ d (c : bool), if c then d else inf)
       (norm_to <$> actions) (data constraints) in
   ∃ x, masked !! np_argmin masked = Some x
        ∧ Forall (λ y, fltb y x = false) masked) →
  actions !! j = Some feasible →
  data constraints !! j = Some true →
  fltb (norm_to feasible) inf = true →
  ∃ r a, projection actions norm_to constraints = inr (Some a)
         ∧ actions !! r = Some a
         ∧ data constraints !! r = Some true.
Proof.
  intros Hsh Hlen Hmin Hj Hc Hfin. cbv zeta in Hmin.
  destruct Hmin as (x & Hx & Hall).
  unfold Policies.projection_get_action.
  rewrite (proj2 (existsb_true_lookup _)) by eauto. cbn [negb].
  destruct actions as [|a0 al]; [discriminate Hj|]. cbv beta iota.
  set (actions := a0 :: al) in *.
  rewrite decide_True by exact Hsh. cbn [np_squeeze data].
  remember (zip_with (λ d (c : bool), if c then d else inf)
              (norm_to <$> actions) (data constraints)) as masked eqn:Em.
  assert (masked !! j = Some (norm_to feasible)) as Hmj.
  { rewrite Em, lookup_zip_with, list_lookup_fmap, Hj. cbn. now rewrite Hc. }
  destruct masked as [|d ds]; [discriminate|].
  set (r := np_argmin (d :: ds)) in *.
  rewrite Em, lookup_zip_with, list_lookup_fmap in Hx.
  destruct (actions !! r) as [a|] eqn:Ea; [|discriminate].
  cbn in Hx.
  destruct (data constraints !! r) as [b|] eqn:Eb; [|discriminate].
  cbn in Hx. injection Hx as Hx.
  exists r, a. split; [reflexivity|]. split; [exact Ea|].
  destruct b; [exact Eb|]. subst x.
  eapply Forall_lookup_1 in Hall; [|exact Hmj]. cbn in Hall. congruence.
Qed.
End PolicyProperties.

(** ** The table of hyperparameters *)

Section LoggingProperties.
Import CartPoleLogging.

Lemma length_format_width (item : str) width :
  length item ≤ width → length (format_width item width) = width.
Proof.
  intros Hle. unfold format_width. rewrite length_app, length_replicate. lia.
Qed.

Lemma max_key_len_cons (x : str) l :
  ∃ s, max_key_len (x :: l) = inr s
    ∧ s ∈ x :: l
    ∧ ∀ y, y ∈ x :: l → length y ≤ length s.
Proof.
  unfold max_key_len. eexists. split; [reflexivity|].
  revert x. induction l as [|y l IH]; intros x; cbn [foldl].
  - split; [apply list_elem_of_here|].
    intros y Hy. apply list_elem_of_singleton in Hy as ->. lia.
  - destruct (Nat.ltb_spec (length x) (length y)) as [Hlt|Hge].
    + destruct (IH y) as [Hin Hmax]. split; [now apply list_elem_of_further|].
      intros z Hz. apply elem_of_cons in Hz as [->|Hz]; [|now apply Hmax].
      pose proof (Hmax y (list_elem_of_here _ _)). lia.
    + destruct (IH x) as [Hin Hmax]. split.
      { apply elem_of_cons in Hin as [->|Hin]; [apply list_elem_of_here|].
        now do 2 apply list_elem_of_further. }
      intros z Hz. apply elem_of_cons in Hz as [->|Hz];
        [apply Hmax, list_elem_of_here|].
      apply elem_of_cons in Hz as [->|Hz];
        [|now apply Hmax, list_elem_of_further].
      pose proof (Hmax x (list_elem_of_here _ _)). lia.
Qed.

Lemma column_longest (rows : list (list str)) (j : nat) h rest :
  omap (λ row : list str, row !! j) rows = h :: rest →
  ∃ s, max_key_len (omap (λ row : list str, row !! j) rows) = inr s
    ∧ (∀ row item, row ∈ rows → row !! j = Some item →
         length item ≤ length s)
    ∧ ∃ row, row ∈ rows ∧ row !! j = Some s.
Proof.
  intros E. destruct (max_key_len_cons h rest) as (s & Es & Hin & Hmax).
  rewrite <- E in Es, Hin, Hmax. exists s. split; [exact Es|]. split.
  - intros row item Hrow Hitem. apply Hmax, list_elem_of_omap. eauto.
  - apply list_elem_of_omap in Hin as (row & Hrow & Hs). eauto.
Qed.

Lemma zip_star_rows (params : list (str * (str * str))) :
  let rows := headers :: ((λ p, [p.1; p.2.1; p.2.2]) <$> params) in
  zip_star rows =
    [omap (λ row : list str, row !! 0) rows;
     omap (λ row : list str, row !! 1) rows;
     omap (λ row : list str, row !! 2) rows].
Proof.
  intros rows. unfold zip_star, rows.
  assert (foldr Nat.min 3
            (length <$> ((λ p : str * (str * str),
                            [p.1; p.2.1; p.2.2]) <$> params)) = 3) as E.
  { induction params as [|p params IH]; [reflexivity|].
    cbn [fmap list_fmap foldr length]. cbn [fmap] in IH. now rewrite IH. }
  change (length headers) with 3. rewrite E. reflexivity.
Qed.

Lemma rows_have_three_items (params : list (str * (str * str))) row :
  row ∈ headers :: ((λ p, [p.1; p.2.1; p.2.2]) <$> params) →
  ∃ a b c, row = [a; b; c].
Proof.
  intros Hrow. apply elem_of_cons in Hrow as [->|Hrow]; [unfold headers; cbn; eauto|].
  apply list_elem_of_fmap in Hrow as (p & -> & _). eauto.
Qed.

(** X17. The table of [log_hyperparameters] has columns of a consistent
    width, counted in code points as [len] and [format] do.  Whatever the
    hyperparameters, the call does not raise; the message is the title,
    one line per row (the headers, then one row per hyperparameter) and the
    line of the computation time; every column is as wide as its longest
    item, the header included; and every line of the table has the same
    length, the sum of the three widths and the two separators. *)
Theorem log_hyperparameters_table_is_aligned
    (params : list (str * (str * str))) (fit_t : str) :
  let rows := headers :: ((λ p, [p.1; p.2.1; p.2.2]) <$> params) in
  ∃ lens,
    log_hyperparameters params fit_t
    = inr (str_of "-------- Hyperparameters --------"
           ++ foldl (λ tab row, tab ++ str_of nl ++ table_row lens row) [] rows
           ++ str_of nl
           ++ str_of "Hyperparameters fitting computation time: "
           ++ fit_t ++ str_of " s")
    ∧ length lens = 3
    ∧ (∀ j w, lens !! j = Some w →
         (∀ row item, row ∈ rows → row !! j = Some item → length item ≤ w)
         ∧ ∃ row item, row ∈ rows ∧ row !! j = Some item ∧ length item = w)
    ∧ Forall2 (λ w h, length h ≤ w) lens headers
    ∧ ∀ row, row ∈ rows → length (table_row lens row) = sum_list lens + 2.
Proof.
  intros rows.
  edestruct (column_longest rows 0) as (s0 & E0 & Hle0 & r0 & Hr0 & Hs0);
    [reflexivity|].
  edestruct (column_longest rows 1) as (s1 & E1 & Hle1 & r1 & Hr1 & Hs1);
    [reflexivity|].
  edestruct (column_longest rows 2) as (s2 & E2 & Hle2 & r2 & Hr2 & Hs2);
    [reflexivity|].
  exists [length s0; length s1; length s2].
  split; [|split; [reflexivity|split; [|split]]].
  - unfold log_hyperparameters. cbv zeta. rewrite (zip_star_rows params).
    cbv zeta. fold rows. cbn [cols_lens]. rewrite E0, E1, E2. reflexivity.
  - intros [|[|[|j]]] w Hw; cbn in Hw; try discriminate;
      injection Hw as <-; (split; [assumption|eauto]).
  - assert (headers ∈ rows) as Hh by apply list_elem_of_here.
    repeat constructor.
    + apply (Hle0 headers); [exact Hh | reflexivity].
    + apply (Hle1 headers); [exact Hh | reflexivity].
    + apply (Hle2 headers); [exact Hh | reflexivity].
  - intros row Hrow.
    destruct (rows_have_three_items params row Hrow) as (a & b & c & ->).
    pose proof (Hle0 _ a Hrow eq_refl). pose proof (Hle1 _ b Hrow eq_refl).
    pose proof (Hle2 _ c Hrow eq_refl).
    unfold table_row. cbn [zip_with join].
    rewrite !length_app, !length_format_width by assumption.
    cbn. lia.
Qed.

(** The table for a kernel with two parameters, as it is logged. *)
Example log_hyperparameters_two_parameters :
  log_hyperparameters two_parameters (str_of "1.234")
  = inr (str_of
           ("-------- Hyperparameters --------" +:+ nl
            +:+ "    Parameter               |    Value (transformed)|    Constraint        "
            +:+ nl
            +:+ "likelihood.noise_covar.noise|0.139                  |GreaterThan(1.000E-04)"
            +:+ nl
            +:+ "covar_module.outputscale    |34.0                   |Positive()            "
            +:+ nl
            +:+ "Hyperparameters fitting computation time: 1.234 s")).
Proof. vm_compute. reflexivity. Qed.

(** A name of thirteen code points, one of them outside ASCII, is as long
    as the first header: neither is padded. *)
Example log_hyperparameters_counts_code_points :
  log_hyperparameters theta_parameter (str_of "1.234")
  = inr (str_of ("-------- Hyperparameters --------" +:+ nl
                 +:+ "    Parameter|    Value (transformed)|    Constraint"
                 +:+ nl +:+ "lengthscale_")
         ++ [952]
         ++ str_of ("|0.5                    |Positive()    " +:+ nl
                    +:+ "Hyperparameters fitting computation time: 1.234 s")).
Proof. vm_compute. reflexivity. Qed.
End LoggingProperties.

(** ** Runs of the policies and more runs on doubles *)

Section MoreRuns.
Import Doubles PolicySamples.
Local Open Scope float_scope.

Lemma argbest_in_bounds better l best position next :
  (position < next)%nat →
  (argbest better best position next l < next + length l)%nat.
Proof.
  revert best position next.
  induction l as [|x l IH]; intros best position next Hlt; cbn; [lia|].
  destruct (better x best).
  - specialize (IH x next (S next)). lia.
  - specialize (IH best position (S next)). lia.
Qed.

Lemma argmax_in_bounds (l : list float) :
  l ≠ [] → (argmax l < length l)%nat.
Proof.
  destruct l as [|x l]; [congruence|]. intros _. unfold argmax.
  pose proof (argbest_in_bounds (λ x best, best <? x) l x 0%nat 1%nat).
  cbn [length]. lia.
Qed.

(** [level_set_warns_only_after_numpy] on the calm regressor. *)
Lemma level_set_warns_only_after_numpy_witness :
  let ms := mk_ndarray [1; 3]%nat [1; 0.5; -1] in
  let cs := mk_ndarray [1; 3]%nat [0.25; 0.25; 0.25] in
  let lams := threshold_list (Single 0) in
  let raised := flat_map (probability_flags ms cs) lams in
  let out := level_set here (Single 0) (Single 0.5) false false false false calm in
  length (List.filter is_warning (trace out.2)) =
    (length (List.filter is_warning (trace calm))
     + (match raised with [] => 0 | _ :: _ => 1 end))%nat
  ∧ (raised = [] →
     trace out.2 = trace calm ++ [Query (level_set_index here) true false]
     ∧ ∃ r, out.1 = inr r
         ∧ level_sets_of r =
             zip_with np_gt_scalar (gaussian_probability ms cs <$> lams)
               (threshold_list (Single 0.5))).
Proof.
  apply (level_set_warns_only_after_numpy here (Single 0) (Single 0.5)
           false false false false calm
           (mk_ndarray [1; 3]%nat [1; 0.5; -1])
           (mk_ndarray [1; 3]%nat [0.25; 0.25; 0.25]) None);
    reflexivity.
Defined.

(** [level_set_pairs_thresholds] on the calm regressor, with two lambdas
    and one gamma. *)
Lemma level_set_pairs_thresholds_witness :
  let ms := mk_ndarray [1; 3]%nat [1; 0.5; -1] in
  let cs := mk_ndarray [1; 3]%nat [0.25; 0.25; 0.25] in
  let lams := threshold_list (Several [0; 1]) in
  let gams := threshold_list (Single 0.5) in
  ∃ r, (level_set here (Several [0; 1]) (Single 0.5)
          true false false false calm).1 = inr r
    ∧ length (level_sets_of r) = (length lams `min` length gams)%nat
    ∧ ((length lams `min` length gams)%nat = 1%nat →
       ∃ p0 g0,
         head (probabilities ms cs lams) = Some p0
         ∧ head gams = Some g0
         ∧ components r =
             BoolArray (np_gt_scalar p0 g0) :: FloatArray p0
             :: selected false false false false NoneObj cs ms None).
Proof.
  apply (level_set_pairs_thresholds here (Several [0; 1]) (Single 0.5)
           false false false calm
           (mk_ndarray [1; 3]%nat [1; 0.5; -1])
           (mk_ndarray [1; 3]%nat [0.25; 0.25; 0.25]) None);
    reflexivity.
Defined.

(** [measure_is_the_mean_over_actions] on the calm regressor, without a
    [gamma_threshold]. *)
Lemma measure_is_the_mean_over_actions_witness :
  ∃ a : ndarray bool,
    (level_set here (Single 0) (Single (gamma_measure (self calm)))
       false false false false calm).1
      = inr (Bare (BoolArray a))
    ∧ (measure here 0 None calm).1 =
        inr (mk_ndarray [length (subarrays a)]
               ((λ row, fmean (data row)) <$> subarrays a))
    ∧ length (subarrays a) = 1%nat
    ∧ Forall (λ row, shape row = [3%nat]) (subarrays a).
Proof.
  apply (measure_is_the_mean_over_actions here 0 None calm
           (mk_ndarray [1; 3]%nat [1; 0.5; -1])
           (mk_ndarray [1; 3]%nat [0.25; 0.25; 0.25]) None);
    reflexivity.
Defined.

(** [load_restores_state_dict] on a folder where the file holds the
    [state_dict] of a model with [gamma_measure] one half. *)
Lemma load_restores_state_dict_witness :
  ∃ model,
    load "gp.pth" "model.json" slash loads_half
      {[ "run/model.json"%string := saved_half ]} "run" env3 None None None
      = inr model
    ∧ gamma_measure model = 0.5
    ∧ state_dict model = {[ "gamma_measure"%string := 0.5 ]}.
Proof.
  apply (load_restores_state_dict "gp.pth" "model.json" slash loads_half
           (mk_SafetyMeasure env3 blank 0.5)
           {[ "run/model.json"%string := saved_half ]}
           "run" saved_half env3 None None);
    reflexivity.
Defined.

(** [indexof_of_getitem] on a product of two grids, with a list for an
    index: the index that comes back is the tuple. *)
Lemma indexof_of_getitem_witness :
  ∃ xs, ProductObjects.getitem [grid 3; grid 2] (PyList [2%nat; 1%nat])
        = inr (PyList xs)
    ∧ ProductObjects.indexof [grid 3; grid 2] (PyList xs)
      = inr (PyTuple [2%nat; 1%nat])
    ∧ (ProductObjects.indexof [grid 3; grid 2] (PyList xs)
       = inr (PyList [2%nat; 1%nat])
       ↔ ∃ items, PyList [2%nat; 1%nat] = PyTuple items)
    ∧ ((∀ k i s, [2%nat; 1%nat] !! k = Some i → [grid 3; grid 2] !! k = Some s →
          space_contains s (space_getitem s i) = true) →
       ProductObjects.contains [grid 3; grid 2] (PyList xs) = inr true).
Proof.
  apply (indexof_of_getitem [grid 3; grid 2] (PyList [2%nat; 1%nat]));
    [reflexivity|].
  intros [|[|k]] i s Hi Hs; cbn in Hi, Hs; try discriminate;
    injection Hi as <-; injection Hs as <-; reflexivity.
Defined.

(** [maximization_stays_on_the_grid] on six probabilities over a grid of
    two by three actions. *)
Lemma maximization_stays_on_the_grid_witness :
  let noisy :=
    Policies.add_noise PrimFloat.add PrimFloat.mul thousandth alternating six in
  let out :=
    Policies.maximization_get_action PrimFloat.add PrimFloat.mul thousandth
      alternating argmax halves [2; 3]%nat six in
  let picked := Policies.unravel [2; 3]%nat (argmax (data noisy)) in
  out.1 = inr (halves picked)
  ∧ Forall2 (λ j d, (j < d)%nat) picked [2; 3]%nat
  ∧ ravel [2; 3]%nat picked = argmax (data noisy)
  ∧ out.2 = noisy.
Proof.
  apply (maximization_stays_on_the_grid PrimFloat.add PrimFloat.mul thousandth
           alternating argmax halves [2; 3]%nat six);
    [reflexivity | vm_compute; lia].
Defined.

(** [active_sampling_finds_an_action] on three actions of which the outer
    two are cautious. *)
Lemma active_sampling_finds_an_action_witness :
  ∃ i, Policies.active_sampling_get_action PrimFloat.add PrimFloat.mul
         thousandth alternating argmax halves variances outer_two
       = inr (Some (halves [i]))
     ∧ data outer_two !! i = Some true.
Proof.
  apply (active_sampling_finds_an_action PrimFloat.add PrimFloat.mul thousandth
           alternating argmax halves variances outer_two 3 0);
    [apply argmax_in_bounds | reflexivity ..].
Defined.

(** [projection_returns_a_feasible_action] on three actions on a line:
    the nearest one is not feasible. *)
Lemma projection_returns_a_feasible_action_witness :
  ∃ r a, Policies.projection_get_action infinity argmin line
           (distance_to 0.375) ends_only = inr (Some a)
         ∧ line !! r = Some a
         ∧ data ends_only !! r = Some true.
Proof.
  apply (projection_returns_a_feasible_action infinity argmin line
           (distance_to 0.375) ends_only 0%nat 0);
    [reflexivity | reflexivity | | reflexivity | reflexivity | reflexivity].
  cbv zeta. eexists. split; [reflexivity | repeat constructor].
Defined.
End MoreRuns.

(** ** [is_in_level_set] on doubles *)

Section DivisionByZero.
Local Open Scope float_scope.

(** A positive double divided by zero is plus infinity, a negative one
    minus infinity. *)
Lemma div_zero_positive (d : float) : (0 <? d) = true → d / 0 = infinity.
Proof.
  intros Hd. apply Prim2SF_inj. rewrite div_spec.
  rewrite ltb_spec in Hd.
  change (Prim2SF 0) with (S754_zero false) in *.
  change (Prim2SF infinity) with (S754_infinity false).
  destruct (Prim2SF d) as [s|s| |s m e]; try discriminate;
    destruct s; try discriminate; reflexivity.
Qed.

Lemma div_zero_negative (d : float) : (d <? 0) = true → d / 0 = neg_infinity.
Proof.
  intros Hd. apply Prim2SF_inj. rewrite div_spec.
  rewrite ltb_spec in Hd.
  change (Prim2SF 0) with (S754_zero false) in *.
  change (Prim2SF neg_infinity) with (S754_infinity true).
  destruct (Prim2SF d) as [s|s| |s m e]; try discriminate;
    destruct s; try discriminate; reflexivity.
Qed.
End DivisionByZero.

Section ConfidentDoubles.
Context {GP : Type} `{Regressor float GP}.
Local Open Scope float_scope.

(** The distribution function: all that is used of it is its value at
    plus and at minus infinity. *)
Variable cdf : float → float.
Variable cdf_flags : float → list string.
Hypothesis cdf_top : cdf infinity = 1.
Hypothesis cdf_bottom : cdf neg_infinity = 0.

End ConfidentDoubles.

(** ** More runs on doubles *)

Section DegenerateRuns.
Import Doubles AnyCdf.
Local Open Scope float_scope.




(** An override without an axis is written as an array of shape [(1,)]. *)
Example update_writes_a_scalar_override_as_a_vector :
  (update (vec [0.5]) (vec [0]) (vec [0.5]) 0 false false
     (Some (mk_ndarray [] [0.75])) calm).1
  = inr (mk_ndarray [1%nat] [0.75]).
Proof. reflexivity. Qed.
End DegenerateRuns.
